(** * video_summarizer: the logic of [app.py]

    A shallow embedding of the three pieces of logic of [app.py]
    ([extract_video_id], [get_transcript] and the body of the
    "Analyze Video" handler up to the call of the assistant), and the
    properties of the specification proved or refuted on it.

    Python [str] values are modelled as [string]; a character is an
    [ascii], read as a code point below 256. *)

From Stdlib Require Import String Ascii List Bool Arith Lia.
From Stdlib Require Import DecimalString.
Import ListNotations.
Local Open Scope string_scope.
Local Open Scope nat_scope.
Set Warnings "-abstract-large-number".

(** * Python strings *)

Module PyStr.

(** [len(s)] *)
Definition len (s : string) : nat := String.length s.

(** [s[:n]] for [n >= 0] *)
Fixpoint take (n : nat) (s : string) : string :=
  match n, s with
  | S n', String c s' => String c (take n' s')
  | _, _ => EmptyString
  end.

(** [s[n:]] for [n >= 0] *)
Fixpoint drop (n : nat) (s : string) : string :=
  match n, s with
  | S n', String _ s' => drop n' s'
  | _, _ => s
  end.

(** [all(p(c) for c in s)] *)
Fixpoint all (p : ascii -> bool) (s : string) : bool :=
  match s with
  | EmptyString => true
  | String c s' => p c && all p s'
  end.

(** [s.startswith(w)] *)
Fixpoint startswith (w s : string) : bool :=
  match w, s with
  | EmptyString, _ => true
  | String a w', String b s' => Ascii.eqb a b && startswith w' s'
  | String _ _, EmptyString => false
  end.

(** [str(n)] for a non-negative [int] *)
Definition str_of_nat (n : nat) : string :=
  NilEmpty.string_of_uint (Nat.to_uint n).

(** The truth value of a [str]: the empty string is false. *)
Definition truthy (s : string) : bool :=
  match s with EmptyString => false | _ => true end.

(** [c.isspace()] on code points below 256. *)
Definition isspace (c : ascii) : bool :=
  let n := nat_of_ascii c in
  ((9 <=? n) && (n <=? 13)) || ((28 <=? n) && (n <=? 32))
  || (n =? 133) || (n =? 160).

(** [len(s.split())]: the number of maximal runs of non-space
    characters.  [inword] tells whether the previous character
    belonged to a word. *)
Fixpoint count_words (inword : bool) (s : string) : nat :=
  match s with
  | EmptyString => 0
  | String c s' =>
      if isspace c then count_words false s'
      else (if inword then 0 else 1) + count_words true s'
  end.

(** [" ".join(parts)] *)
Fixpoint join_space (parts : list string) : string :=
  match parts with
  | [] => EmptyString
  | [p] => p
  | p :: ps => p ++ " " ++ join_space ps
  end.

End PyStr.

Import PyStr.

(** * The fragment of [re] used by [extract_video_id] *)

Module Re.

Inductive regex : Type :=
| Eps                              (* the empty pattern *)
| Lit (c : ascii)                  (* a literal character *)
| Cls (p : ascii -> bool)          (* a character class [...] *)
| Dot                              (* [.]: any character but a newline *)
| Seq (r1 r2 : regex)              (* r1 r2 *)
| Or (r1 r2 : regex)               (* r1|r2, left alternative first *)
| Times (n : nat) (r : regex)      (* r{n} *)
| Star (r : regex)                 (* r*, greedy *)
| NonCap (r : regex)               (* (?:r) *)
| Group (r : regex).               (* (r), capture group 1 *)

(** A literal word, character by character. *)
Fixpoint Str (w : string) : regex :=
  match w with
  | EmptyString => Eps
  | String c w' => Seq (Lit c) (Str w')
  end.

(** The content of group 1, [None] while it has not taken part. *)
Definition capture := option string.

(** A continuation receives the rest of the input and the capture. *)
Definition cont := string -> capture -> option capture.

Definition newline : ascii := "010"%char.

(** Backtracking matcher in continuation-passing style: [m r s c k]
    matches [r] at the head of [s] and hands the rest to [k]; when [k]
    fails the next way of matching [r] is tried, in the order of
    Python's engine (left alternative first, longest repetition
    first).  An iteration of [Star] that consumes nothing ends the
    repetition. *)
Fixpoint m (r : regex) (s : string) (c : capture) (k : cont) {struct r}
  : option capture :=
  match r with
  | Eps => k s c
  | Lit a =>
      match s with
      | String b s' => if Ascii.eqb a b then k s' c else None
      | EmptyString => None
      end
  | Cls p =>
      match s with
      | String b s' => if p b then k s' c else None
      | EmptyString => None
      end
  | Dot =>
      match s with
      | String b s' => if Ascii.eqb b newline then None else k s' c
      | EmptyString => None
      end
  | Seq r1 r2 => m r1 s c (fun s' c' => m r2 s' c' k)
  | Or r1 r2 =>
      match m r1 s c k with
      | Some res => Some res
      | None => m r2 s c k
      end
  | Times n r' =>
      (fix rep (n : nat) (s : string) (c : capture) : option capture :=
         match n with
         | 0 => k s c
         | S n' => m r' s c (fun s' c' => rep n' s' c')
         end) n s c
  | Star r' =>
      (fix loop (fuel : nat) (s : string) (c : capture) : option capture :=
         match fuel with
         | 0 => k s c
         | S fuel' =>
             match m r' s c (fun s' c' =>
                               if len s' <? len s then loop fuel' s' c'
                               else None) with
             | Some res => Some res
             | None => k s c
             end
         end) (len s) s c
  | NonCap r' => m r' s c k
  | Group r' =>
      m r' s c (fun s' _ => k s' (Some (take (len s - len s') s)))
  end.

(** A match object; only [group(1)] is observed. *)
Record match_object : Type := { group1 : capture }.

(** [re.match(r, s)]: a match anchored at the start of [s]. *)
Definition match_at (r : regex) (s : string) : option match_object :=
  match m r s None (fun _ c => Some c) with
  | Some c => Some {| group1 := c |}
  | None => None
  end.

(** [re.search(r, s)]: the match at the leftmost position that has
    one; the positions run from 0 to [len(s)] included. *)
Fixpoint search (r : regex) (s : string) : option match_object :=
  match match_at r s with
  | Some mo => Some mo
  | None =>
      match s with
      | EmptyString => None
      | String _ s' => search r s'
      end
  end.

End Re.

Import Re.

(** * [extract_video_id] *)

(** The class [[0-9A-Za-z_-]]. *)
Definition id_char (c : ascii) : bool :=
  let n := nat_of_ascii c in
  ((48 <=? n) && (n <=? 57))        (* 0-9 *)
  || ((65 <=? n) && (n <=? 90))     (* A-Z *)
  || ((97 <=? n) && (n <=? 122))    (* a-z *)
  || (n =? 95)                      (* _ *)
  || (n =? 45).                     (* - *)

(** [([0-9A-Za-z_-]{11})] *)
Definition id_group : regex := Group (Times 11 (Cls id_char)).

(** The four patterns, in the order of the list [patterns]. *)
Definition pattern_any : regex :=       (* (?:v=|\/)([0-9A-Za-z_-]{11}).* *)
  Seq (NonCap (Or (Str "v=") (Str "/"))) (Seq id_group (Star Dot)).
Definition pattern_embed : regex :=     (* (?:embed\/)([0-9A-Za-z_-]{11}) *)
  Seq (NonCap (Str "embed/")) id_group.
Definition pattern_watch : regex :=     (* (?:watch\?v=)([0-9A-Za-z_-]{11}) *)
  Seq (NonCap (Str "watch?v=")) id_group.
Definition pattern_short : regex :=     (* (?:youtu\.be\/)([0-9A-Za-z_-]{11}) *)
  Seq (NonCap (Str "youtu.be/")) id_group.

Definition patterns : list regex :=
  [pattern_any; pattern_embed; pattern_watch; pattern_short].

(** The loop [for pattern in patterns]; the function returns at the
    first pattern that matches, with the content of its group 1. *)
Fixpoint first_match (ps : list regex) (url : string) : option string :=
  match ps with
  | [] => None
  | p :: ps' =>
      match search p url with
      | Some mo => group1 mo
      | None => first_match ps' url
      end
  end.

(** [None] is Python's [None].  With these patterns [re.search] raises
    for no input string, so the function has no outcome but its
    value. *)
Definition extract_video_id (url : string) : option string :=
  first_match patterns url.

(** * Exceptions and calls of the transcript source *)

(** The classes of exception that [get_transcript] tells apart; every
    other subclass of [Exception] is an [OtherError] with its class
    name. *)
Inductive exception_class : Type :=
| TranscriptsDisabled
| NoTranscriptFound
| VideoUnavailable
| OtherError (name : string)
| PlainException.                 (* [Exception] itself *)

(** An exception object: its class and [str(e)]. *)
Record exception : Type := { exc_class : exception_class; exc_str : string }.

(** [Exception(msg)] *)
Definition Exception (msg : string) : exception :=
  {| exc_class := PlainException; exc_str := msg |}.

Inductive result (A : Type) : Type :=
| Ok (a : A)
| Raise (e : exception).
Arguments Ok {A} a.
Arguments Raise {A} e.

(** One caption entry of a fetched transcript; its timing is not used
    by the program and is left out. *)
Record snippet : Type := { text : string }.

(** The value of [transcript.fetch()]: the caption entries in order. *)
Definition FetchedTranscript : Type := list snippet.

(** The transcript source as [get_transcript] uses it: each operation
    either returns or raises. *)
Record TranscriptApi : Type := {
  TranscriptList : Type;
  Transcript : Type;
  (* YouTubeTranscriptApi() *)
  new_api : result unit;
  (* api.list(video_id) *)
  list_transcripts : string -> result TranscriptList;
  (* transcript_list.find_transcript(language_codes) *)
  find_transcript : TranscriptList -> list string -> result Transcript;
  (* transcript_list.find_manually_created_transcript(), no argument *)
  find_manually_created_transcript : TranscriptList -> result Transcript;
  (* transcript_list.find_generated_transcript(language_codes) *)
  find_generated_transcript : TranscriptList -> list string -> result Transcript;
  (* for transcript in transcript_list *)
  iter : TranscriptList -> list Transcript;
  (* transcript.fetch() *)
  fetch : Transcript -> result FetchedTranscript;
  (* transcript.language *)
  language : Transcript -> string
}.

(** The calls made to the source, in the order they are made. *)
Inductive call (A : TranscriptApi) : Type :=
| CallNew
| CallList (video_id : string)
| CallFind (codes : list string)
| CallFindManual
| CallFindGenerated (codes : list string)
| CallFetch (t : Transcript A).
Arguments CallNew {A}.
Arguments CallList {A} video_id.
Arguments CallFind {A} codes.
Arguments CallFindManual {A}.
Arguments CallFindGenerated {A} codes.
Arguments CallFetch {A} t.

(** A computation that calls the source: the calls made and the
    outcome. *)
Module Src.

Definition M (A : TranscriptApi) (X : Type) : Type :=
  (list (call A) * result X)%type.

Definition ret {A X} (x : X) : M A X := ([], Ok x).

Definition bind {A X Y} (c : M A X) (f : X -> M A Y) : M A Y :=
  match c with
  | (l, Ok x) => let (l', r) := f x in ((l ++ l')%list, r)
  | (l, Raise e) => (l, Raise e)
  end.

(** One call of the source, recorded. *)
Definition perform {A X} (c : call A) (r : result X) : M A X := ([c], r).

Definition calls {A X} (c : M A X) : list (call A) := fst c.
Definition outcome {A X} (c : M A X) : result X := snd c.

End Src.

Notation "x <- c1 ;; c2" := (Src.bind c1 (fun x => c2))
  (at level 61, c1 at next level, right associativity).

(** * [get_transcript] *)

Section Resolver.

Variable A : TranscriptApi.

(** What [get_transcript] returns: [(data, language)] or
    [(None, None)]. *)
Definition resolved : Type :=
  (option FetchedTranscript * option string)%type.

(** [try: return <attempt> except: <rest>]: a bare [except] catches
    whatever the attempt raises, and the code after it runs. *)
Definition tier (attempt : Src.M A (FetchedTranscript * string))
                (rest : Src.M A resolved) : Src.M A resolved :=
  match attempt with
  | (l, Ok (data, lang)) => (l, Ok (Some data, Some lang))
  | (l, Raise _) => let (l', r) := rest in ((l ++ l')%list, r)
  end.

(** [return transcript.fetch(), <label>] *)
Definition fetch_as (t : Transcript A) (label : string)
  : Src.M A (FetchedTranscript * string) :=
  data <- Src.perform (CallFetch t) (fetch A t) ;;
  Src.ret (data, label).

Definition tier1 (tl : TranscriptList A) :=
  t <- Src.perform (CallFind ["en"]) (find_transcript A tl ["en"]) ;;
  fetch_as t "English".

Definition tier2 (tl : TranscriptList A) :=
  t <- Src.perform CallFindManual (find_manually_created_transcript A tl) ;;
  fetch_as t (language A t).

Definition tier3 (tl : TranscriptList A) :=
  t <- Src.perform (CallFindGenerated ["en"])
                   (find_generated_transcript A tl ["en"]) ;;
  fetch_as t "English (auto-generated)".

(** The loop [for transcript in transcript_list], followed by
    [return None, None]. *)
Fixpoint tier4 (ts : list (Transcript A)) : Src.M A resolved :=
  match ts with
  | [] => Src.ret (None, None)
  | t :: ts' => tier (fetch_as t (language A t)) (tier4 ts')
  end.

(** The [except] clauses of the outer [try]. *)
Definition reraise (e : exception) : exception :=
  match exc_class e with
  | TranscriptsDisabled =>
      Exception "Transcripts are disabled for this video"
  | NoTranscriptFound =>
      Exception "No transcripts found for this video"
  | VideoUnavailable =>
      Exception "Video is unavailable or private"
  | _ => Exception ("Error fetching transcript: " ++ exc_str e)
  end.

Definition outer_try {X} (c : Src.M A X) : Src.M A X :=
  match c with
  | (l, Raise e) => (l, Raise (reraise e))
  | (l, Ok x) => (l, Ok x)
  end.

Definition get_transcript (video_id : string) : Src.M A resolved :=
  outer_try (
    _ <- Src.perform CallNew (new_api A) ;;
    transcript_list <-
      Src.perform (CallList video_id) (list_transcripts A video_id) ;;
    tier (tier1 transcript_list) (
    tier (tier2 transcript_list) (
    tier (tier3 transcript_list) (
    tier4 (iter A transcript_list))))).

End Resolver.

Arguments tier {A} attempt rest.
Arguments fetch_as {A} t label.
Arguments tier1 {A} tl.
Arguments tier2 {A} tl.
Arguments tier3 {A} tl.
Arguments tier4 {A} ts.
Arguments outer_try {A X} c.

(** The preference chain in the words of the specification: the
    attempts in order, each one a lookup that succeeds or fails. *)
Definition attempts (A : TranscriptApi) (tl : TranscriptList A)
  : list (Src.M A (FetchedTranscript * string)) :=
  [tier1 tl; tier2 tl; tier3 tl]
  ++ map (fun t => fetch_as t (language A t)) (iter A tl).

Definition fails {A X} (c : Src.M A X) : Prop :=
  exists e, Src.outcome c = Raise e.

(** * The transcript source *)

Module Tracks.

(** Modelled from the spec: the transcript source collaborator (the
    package [youtube_transcript_api], which is not part of the
    repository).  A track has a human-readable language label, a
    language code, a provenance flag, and is fetchable on demand into
    its caption entries, which may fail. *)
Record Track : Type := {
  track_language : string;
  language_code : string;
  is_generated : bool;
  fetched : result FetchedTranscript
}.

(** Modelled from the spec: the enumerable collection of available
    tracks of a video, in the order the source enumerates them. *)
Definition TrackSet : Type := list Track.

Definition manual (t : Track) : Prop := is_generated t = false.
Definition english (t : Track) : Prop := language_code t = "en".

Definition no_transcript_found : exception :=
  {| exc_class := NoTranscriptFound;
     exc_str := "No transcripts were found for the requested language codes" |}.

(** The track of the given provenance listed under [code]. *)
Definition lookup (gen : bool) (code : string) (ts : TrackSet)
  : option Track :=
  find (fun t => Bool.eqb (is_generated t) gen
                 && String.eqb (language_code t) code) ts.

Fixpoint lookup_kinds (kinds : list bool) (code : string) (ts : TrackSet)
  : option Track :=
  match kinds with
  | [] => None
  | g :: kinds' =>
      match lookup g code ts with
      | Some t => Some t
      | None => lookup_kinds kinds' code ts
      end
  end.

(** Modelled from the spec: a lookup by language codes among the
    tracks of the given provenances.  The codes are tried in order
    and, for each code, the provenances in order; the lookup fails
    with the not-found condition. *)
Fixpoint find_by_codes (kinds : list bool) (codes : list string)
                       (ts : TrackSet) : result Track :=
  match codes with
  | [] => Raise no_transcript_found
  | code :: codes' =>
      match lookup_kinds kinds code ts with
      | Some t => Ok t
      | None => find_by_codes kinds codes' ts
      end
  end.

(** Modelled from the spec: the source of a platform that serves
    [served video_id] as the track set of a video.  Tier 1 asks for a
    track "in any form": manually authored first, auto-generated
    otherwise.  The lookup of tier 2 is made without language codes;
    what it answers is left open as [manual_call]. *)
Definition source (served : string -> result TrackSet)
                  (manual_call : TrackSet -> result Track)
  : TranscriptApi :=
  {| TranscriptList := TrackSet;
     Transcript := Track;
     new_api := Ok tt;
     list_transcripts := served;
     find_transcript := fun ts codes => find_by_codes [false; true] codes ts;
     find_manually_created_transcript := manual_call;
     find_generated_transcript := fun ts codes => find_by_codes [true] codes ts;
     iter := fun ts => ts;
     fetch := fetched;
     language := track_language |}.

(** Whatever the call of tier 2 answers, it answers with a manually
    authored track of the set. *)
Definition manual_call_sound (manual_call : TrackSet -> result Track)
  : Prop :=
  forall ts t, manual_call ts = Ok t -> In t ts /\ manual t.

(** Two answers of that call: the first manually authored track, and
    the rejection of a call that passes no language codes. *)
Definition first_manual (ts : TrackSet) : result Track :=
  match find (fun t => negb (is_generated t)) ts with
  | Some t => Ok t
  | None => Raise no_transcript_found
  end.

Definition missing_argument (ts : TrackSet) : result Track :=
  Raise {| exc_class := OtherError "TypeError";
           exc_str := "missing 1 required positional argument: 'language_codes'" |}.

End Tracks.

Import Tracks.

(** * The handler of the "Analyze Video" button *)

(** What the page shows. *)
Inductive ui : Type :=
| st_warning (msg : string)
| st_error (msg : string)
| st_info (msg : string)
| st_success (msg : string)
| st_video (url : string)
| st_code (body : string).

(** How a run of the handler ends. *)
Inductive ending : Type :=
| Sent (prompt : string)    (* [assistant.run(prompt)] is called *)
| Stopped                   (* [st.stop()] *)
| Ended.                    (* the handler ends without calling the assistant *)

Definition nl : string := String newline EmptyString.

Definition summary_instructions : list (string * string) :=
  [("Comprehensive",
    "Provide a detailed, comprehensive summary covering all major topics and subtopics.");
   ("Key Points",
    "Extract and list the key points and main takeaways in bullet format.");
   ("Quick Overview",
    "Provide a brief, concise overview in 3-4 sentences.");
   ("Detailed Analysis",
    "Provide an in-depth analysis including themes, arguments, and insights.")].

(** The options of the select box "Summary Type:". *)
Definition summary_types : list string :=
  ["Comprehensive"; "Key Points"; "Quick Overview"; "Detailed Analysis"].

(** [d[key]]; [None] stands for [KeyError]. *)
Fixpoint dict_get (d : list (string * string)) (key : string)
  : option string :=
  match d with
  | [] => None
  | (k, v) :: d' => if String.eqb k key then Some v else dict_get d' key
  end.

(** [repr(s)] for a [str] of code points below 256.  The quote is the
    apostrophe, or the double quote when the string holds an apostrophe
    and no double quote; the quote and the backslash are escaped with a
    backslash, tab, newline and carriage return are written [\t], [\n]
    and [\r], every other character that is not printable is written
    [\xhh], and the printable characters stand for themselves. *)
Module Repr.

Definition squote : ascii := "039"%char.
Definition dquote : ascii := "034"%char.
Definition backslash : ascii := "092"%char.

(** [c in s] *)
Fixpoint contains (c : ascii) (s : string) : bool :=
  match s with
  | EmptyString => false
  | String a s' => Ascii.eqb a c || contains c s'
  end.

(** [c.isprintable()] on code points below 256. *)
Definition isprintable (c : ascii) : bool :=
  let n := nat_of_ascii c in
  ((32 <=? n) && (n <=? 126)) || ((161 <=? n) && negb (n =? 173)).

(** The lower-case hexadecimal digit of [n < 16]. *)
Definition hex_digit (n : nat) : ascii :=
  match String.get n "0123456789abcdef" with
  | Some d => d
  | None => "0"%char
  end.

(** What [repr] writes for the character [c] inside the quotes. *)
Definition escape (quote c : ascii) : string :=
  let n := nat_of_ascii c in
  if Ascii.eqb c quote || Ascii.eqb c backslash
  then String backslash (String c EmptyString)
  else if n =? 9 then String backslash "t"
  else if n =? 10 then String backslash "n"
  else if n =? 13 then String backslash "r"
  else if isprintable c then String c EmptyString
  else String backslash
         (String "x" (String (hex_digit (n / 16))
                        (String (hex_digit (n mod 16)) EmptyString))).

Fixpoint escape_all (quote : ascii) (s : string) : string :=
  match s with
  | EmptyString => EmptyString
  | String c s' => escape quote c ++ escape_all quote s'
  end.

(** A printable character other than the apostrophe and the
    backslash. *)
Definition plain (c : ascii) : bool :=
  isprintable c && negb (Ascii.eqb c squote) && negb (Ascii.eqb c backslash).

Definition repr (s : string) : string :=
  let quote :=
    if contains squote s && negb (contains dquote s) then dquote else squote in
  String quote (escape_all quote s ++ String quote EmptyString).

End Repr.

(** [KeyError(key)]; its [str] is [repr(key)]. *)
Definition key_error (key : string) : exception :=
  {| exc_class := OtherError "KeyError"; exc_str := Repr.repr key |}.

Definition MAX_CHARS : nat := 30000.

Definition truncation_warning : ui :=
  st_warning ("Transcript truncated to " ++ str_of_nat MAX_CHARS
              ++ " characters for processing.").

(** [if len(text) > MAX_CHARS: text = text[:MAX_CHARS]; st.warning(...)]:
    the text that goes on and what is shown. *)
Definition truncate (text : string) : string * list ui :=
  if MAX_CHARS <? len text
  then (take MAX_CHARS text, [truncation_warning])
  else (text, []).

Definition persona : string := "You are an expert video content analyst. ".
Definition directive : string :=
  "Please provide a well-structured response with clear sections and formatting.".

(** [user_query if user_query else "None"] *)
Definition instructions_slot (user_query : string) : string :=
  if truthy user_query then user_query else "None".

(** The f-string assigned to [prompt]. *)
Definition prompt_of (instruction user_query language text : string)
  : string :=
  persona ++ nl
  ++ "**Task:** " ++ instruction ++ nl
  ++ "**Additional User Instructions:** " ++ instructions_slot user_query ++ nl
  ++ "**Video Transcript (Language: " ++ language ++ "):**" ++ nl
  ++ text ++ nl
  ++ directive.

(** The Prompt Composer: the truncation and the f-string, with what is
    shown on the way.  The entry of [summary_instructions] is looked up
    when the f-string is evaluated, after the truncation. *)
Definition compose (summary_type user_query language text : string)
  : list ui * result string :=
  let (text', shown) := truncate text in
  match dict_get summary_instructions summary_type with
  | Some instruction =>
      (shown, Ok (prompt_of instruction user_query language text'))
  | None => (shown, Raise (key_error summary_type))
  end.

(** [f"{language}"] for a value that may be [None]. *)
Definition format_opt (o : option string) : string :=
  match o with Some s => s | None => "None" end.

(** The truth value of [transcript_data]: [None] and a transcript
    without entries are false. *)
Definition has_entries (data : option FetchedTranscript) : bool :=
  match data with
  | Some (_ :: _) => true
  | _ => false
  end.

Section Handler.

Variable A : TranscriptApi.

(** The block under "Fetching transcript...": the text of the
    transcript and its language, or a stop. *)
Definition fetch_stage (video_id : string)
  : list ui * option (string * option string) :=
  match Src.outcome (get_transcript A video_id) with
  | Ok (transcript_data, lang) =>
      if negb (has_entries transcript_data)
      then ([st_error "❌ No transcript available for this video."], None)
      else
        let text :=
          join_space (map text (match transcript_data with
                                | Some d => d
                                | None => []
                                end)) in
        if all isspace text
        then ([st_error "❌ Transcript is empty."], None)
        else ([st_success ("✅ Transcript fetched! ("
                           ++ str_of_nat (count_words false text)
                           ++ " words, Language: " ++ format_opt lang ++ ")")],
              Some (text, lang))
  | Raise e =>
      ([st_error ("❌ Could not fetch transcript: " ++ exc_str e)], None)
  end.

(** The handler, from the press of the button to the call of the
    assistant.  [assistant] tells whether the assistant was built. *)
Definition analyze_video (assistant : bool)
                         (yt_link summary_type user_query : string)
  : list ui * ending :=
  if negb (truthy yt_link)
  then ([st_warning "⚠️ Please enter a YouTube video link."], Ended)
  else if negb assistant
  then ([st_error "❌ Assistant initialization failed. Please check your API key."],
        Ended)
  else
    match extract_video_id yt_link with
    | None | Some EmptyString =>
        ([st_error "❌ Invalid YouTube link. Please check the URL and try again."],
         Stopped)
    | Some video_id =>
        let shown1 := [st_info ("✓ Video ID: " ++ video_id)] in
        match fetch_stage video_id with
        | (shown2, None) => ((shown1 ++ shown2)%list, Stopped)
        | (shown2, Some (text, lang)) =>
            let shown3 := [st_video yt_link] in
            match compose summary_type user_query (format_opt lang) text with
            | (shown4, Ok prompt) =>
                ((shown1 ++ shown2 ++ shown3 ++ shown4)%list, Sent prompt)
            | (shown4, Raise e) =>
                ((shown1 ++ shown2 ++ shown3 ++ shown4
                  ++ [st_error ("❌ An unexpected error occurred: " ++ exc_str e);
                      st_code (exc_str e)])%list,
                 Ended)
            end
        end
    end.

End Handler.

(** * What the patterns recognise *)

(** The [n] characters at the head of [s] when all are identifier
    characters. *)
Fixpoint take_id (n : nat) (s : string) : option string :=
  match n with
  | 0 => Some EmptyString
  | S n' =>
      match s with
      | String c s' =>
          if id_char c
          then match take_id n' s' with
               | Some v => Some (String c v)
               | None => None
               end
          else None
      | EmptyString => None
      end
  end.

(** An identifier: 11 characters of the class. *)
Definition valid_id (v : string) : Prop :=
  len v = 11 /\ all id_char v = true.

(** The identifier that follows the word [w] at the head of [s]. *)
Definition hit_after (w s : string) : option string :=
  if startswith w s then take_id 11 (drop (len w) s) else None.

(** The identifier that follows ["v="] or ["/"] at the head of [s]. *)
Definition hit_any (s : string) : option string :=
  match hit_after "v=" s with
  | Some v => Some v
  | None => hit_after "/" s
  end.

(** The first answer of [f] on [s], on [s] without its first
    character, and so on down to the empty string. *)
Fixpoint leftmost {X : Type} (f : string -> option X) (s : string)
  : option X :=
  match f s with
  | Some x => Some x
  | None =>
      match s with
      | EmptyString => None
      | String _ s' => leftmost f s'
      end
  end.

(** Whether ["v="] or ["/"] followed by 11 identifier characters
    starts at one of the positions of [p] in [p ++ t]. *)
Fixpoint hit_before (p t : string) : bool :=
  match p with
  | EmptyString => false
  | String _ p' =>
      match hit_any (p ++ t) with
      | Some _ => true
      | None => hit_before p' t
      end
  end.

(** The match object whose group 1 is [v]. *)
Definition with_group (v : string) : match_object := {| group1 := Some v |}.

(** The words that precede the identifier in the four patterns. *)
Definition shape_markers : list string :=
  ["v="; "/"; "embed/"; "watch?v="; "youtu.be/"].

(** * The chain of tiers *)

(** The attempts one after the other: the first that succeeds decides,
    and [(None, None)] is returned when none does. *)
Definition chain {A : TranscriptApi}
                 (l : list (Src.M A (FetchedTranscript * string)))
  : Src.M A resolved :=
  fold_right tier (Src.ret (None, None)) l.

(** The calls of a list of attempts that were all made. *)
Definition calls_of {A : TranscriptApi} {X : Type} (l : list (Src.M A X))
  : list (call A) :=
  concat (map Src.calls l).

(** The source fails before any track is looked up: when the client is
    built or when the tracks of the video are listed. *)
Definition listing_fails (A : TranscriptApi) (video_id : string)
                         (e : exception) : Prop :=
  new_api A = Raise e
  \/ (new_api A = Ok tt /\ list_transcripts A video_id = Raise e).

(** The calls made when the listing fails with [e]. *)
Definition listing_calls (A : TranscriptApi) (video_id : string)
  : list (call A) :=
  match new_api A with
  | Ok _ => [CallNew; CallList video_id]
  | Raise _ => [CallNew]
  end.

(** Sample tracks and sources. *)
Definition unavailable : exception :=
  {| exc_class := VideoUnavailable;
     exc_str := "The video is no longer available" |}.

Definition sample_entries : FetchedTranscript :=
  [{| text := "hello" |}; {| text := "world" |}].

Definition blocked_french : Track :=
  {| track_language := "French"; language_code := "fr";
     is_generated := false; fetched := Raise unavailable |}.

Definition manual_french : Track :=
  {| track_language := "French"; language_code := "fr";
     is_generated := false; fetched := Ok sample_entries |}.

Definition manual_english : Track :=
  {| track_language := "English"; language_code := "en";
     is_generated := false; fetched := Ok sample_entries |}.

Definition generated_english : Track :=
  {| track_language := "English (auto-generated)"; language_code := "en";
     is_generated := true; fetched := Ok sample_entries |}.

Definition blocked_english : Track :=
  {| track_language := "English"; language_code := "en";
     is_generated := false; fetched := Raise unavailable |}.

Definition english_us : Track :=
  {| track_language := "English (United States)"; language_code := "en-US";
     is_generated := false; fetched := Ok sample_entries |}.

(** A platform that serves the same track set for every video. *)
Definition serving (ts : TrackSet) : string -> result TrackSet :=
  fun _ => Ok ts.

(** [c * n] for a character [c] *)
Fixpoint replicate (n : nat) (c : ascii) : string :=
  match n with
  | 0 => EmptyString
  | S n' => String c (replicate n' c)
  end.

(** * After the call of the assistant *)

(** [len(text.split()) // 200] *)
Definition reading_minutes (text : string) : nat :=
  count_words false text / 200.

(** The four lines written under "Transcript Statistics"; [text] is
    the text after truncation. *)
Definition transcript_statistics (language text : string) : list string :=
  ["**Language:** " ++ language;
   "**Total Words:** " ++ str_of_nat (count_words false text);
   "**Total Characters:** " ++ str_of_nat (len text);
   "**Estimated Reading Time:** " ++ str_of_nat (reading_minutes text)
   ++ " minutes"].

(** The [file_name] of the download button. *)
Definition download_file_name (video_id : string) : string :=
  "transcript_" ++ video_id ++ ".txt".

(** A character that is an identifier character or a dot. *)
Definition file_char (c : ascii) : bool :=
  id_char c || Ascii.eqb c "."%char.

(** The number of calls of the source in a run. *)
Definition call_count {A : TranscriptApi} {X : Type} (c : Src.M A X) : nat :=
  List.length (Src.calls c).

(** The text the handler builds from the entries of a transcript. *)
Definition transcript_text (data : FetchedTranscript) : string :=
  join_space (map text data).

(** * Facts about strings *)

Section StringFacts.

Lemma append_assoc (a b c : string) : (a ++ b) ++ c = a ++ b ++ c.
Proof. induction a as [|x a IH]; simpl; [reflexivity | now rewrite IH]. Qed.

Lemma append_empty_r (a : string) : a ++ "" = a.
Proof. induction a as [|x a IH]; simpl; [reflexivity | now rewrite IH]. Qed.

Lemma len_append (a b : string) : len (a ++ b) = len a + len b.
Proof. induction a as [|x a IH]; simpl; [reflexivity | now rewrite IH]. Qed.

Lemma len_take (n : nat) (s : string) : len (take n s) = Nat.min n (len s).
Proof.
  revert s; induction n as [|n IH]; intros [|x s]; simpl; try reflexivity.
  now rewrite IH.
Qed.

Lemma take_all (n : nat) (s : string) : len s <= n -> take n s = s.
Proof.
  revert s; induction n as [|n IH]; intros [|x s]; simpl; intros H;
    try reflexivity; try lia.
  rewrite IH; [reflexivity | lia].
Qed.

Lemma take_drop (n : nat) (s : string) : take n s ++ drop n s = s.
Proof.
  revert s; induction n as [|n IH]; intros [|x s]; simpl; try reflexivity.
  now rewrite IH.
Qed.

Lemma take_append (a b : string) : take (len a) (a ++ b) = a.
Proof. induction a as [|x a IH]; simpl; [now destruct b | now rewrite IH]. Qed.

Lemma drop_append (a b : string) : drop (len a) (a ++ b) = b.
Proof. induction a as [|x a IH]; simpl; [reflexivity | exact IH]. Qed.

Lemma len_drop (n : nat) (s : string) : len (drop n s) = len s - n.
Proof.
  revert s; induction n as [|n IH]; intros [|x s]; simpl; try reflexivity.
  apply IH.
Qed.

Lemma all_append (p : ascii -> bool) (a b : string) :
  all p (a ++ b) = all p a && all p b.
Proof.
  induction a as [|x a IH]; simpl; [reflexivity|].
  now rewrite IH, andb_assoc.
Qed.

Lemma startswith_append (w s : string) : startswith w (w ++ s) = true.
Proof.
  induction w as [|x w IH]; simpl; [reflexivity|].
  now rewrite Ascii.eqb_refl, IH.
Qed.

Lemma startswith_split (w s : string) :
  startswith w s = true -> s = w ++ drop (len w) s.
Proof.
  revert s; induction w as [|x w IH]; intros [|y s]; simpl; intros H;
    try reflexivity; try discriminate.
  apply andb_true_iff in H as [Hxy Hw].
  apply Ascii.eqb_eq in Hxy; subst y.
  f_equal; now apply IH.
Qed.

End StringFacts.

(** * Facts about the matcher *)

Section MatcherFacts.

Lemma m_Str (w s : string) (c : capture) (k : cont) :
  m (Str w) s c k = if startswith w s then k (drop (len w) s) c else None.
Proof.
  revert s; induction w as [|a w IH]; intros s; simpl; [reflexivity|].
  destruct s as [|b s]; [reflexivity|].
  destruct (Ascii.eqb a b); simpl; [apply IH | reflexivity].
Qed.

Lemma take_id_take (n : nat) (s v : string) :
  take_id n s = Some v -> v = take n s /\ n <= len s /\ all id_char v = true.
Proof.
  revert s v; induction n as [|n IH]; intros s v; simpl.
  - intros [= <-]. repeat split. lia.
  - destruct s as [|x s]; [discriminate|].
    destruct (id_char x) eqn:Hx; [|discriminate].
    destruct (take_id n s) as [u|] eqn:Hu; [|discriminate].
    intros [= <-]. destruct (IH _ _ Hu) as (-> & Hle & Hall).
    simpl. rewrite Hx, Hall. repeat split. lia.
Qed.

Lemma take_id_append (v rest : string) :
  all id_char v = true -> take_id (len v) (v ++ rest) = Some v.
Proof.
  induction v as [|x v IH]; simpl; [reflexivity|].
  intros H. apply andb_true_iff in H as [Hx Hv].
  now rewrite Hx, IH.
Qed.

Lemma m_Times_Cls (n : nat) (s : string) (c : capture) (k : cont) :
  m (Times n (Cls id_char)) s c k =
  match take_id n s with
  | Some _ => k (drop n s) c
  | None => None
  end.
Proof.
  revert s; induction n as [|n IH]; intros s; [reflexivity|].
  destruct s as [|x s]; [reflexivity|].
  change (m (Times (S n) (Cls id_char)) (String x s) c k)
    with (if id_char x then m (Times n (Cls id_char)) s c k else None).
  simpl take_id. simpl drop.
  destruct (id_char x); [|reflexivity].
  rewrite IH. now destruct (take_id n s).
Qed.

Lemma m_id_group (s : string) (c : capture) (k : cont) :
  m id_group s c k =
  match take_id 11 s with
  | Some v => k (drop 11 s) (Some v)
  | None => None
  end.
Proof.
  unfold id_group.
  change (m (Group (Times 11 (Cls id_char))) s c k)
    with (m (Times 11 (Cls id_char)) s c
            (fun s' _ => k s' (Some (take (len s - len s') s)))).
  rewrite m_Times_Cls.
  destruct (take_id 11 s) as [v|] eqn:Hv; [|reflexivity].
  apply take_id_take in Hv as (-> & Hle & _).
  rewrite len_drop. do 3 f_equal. lia.
Qed.

(** [.*] followed by nothing always matches. *)
Lemma m_Star_Dot_end (s : string) (c : capture) :
  m (Star Dot) s c (fun _ c' => Some c') = Some c.
Proof.
  simpl. generalize (len s) as fuel. intros fuel; revert s.
  induction fuel as [|fuel IH]; intros s; [reflexivity|].
  destruct s as [|x s]; [reflexivity|].
  destruct (Ascii.eqb x newline); [reflexivity|].
  replace (len s <? len (String x s)) with true
    by (symmetry; apply Nat.ltb_lt; simpl; lia).
  now rewrite IH.
Qed.

End MatcherFacts.

(** * Facts about the patterns and the search *)

Section SearchFacts.

Lemma match_at_marker (w s : string) :
  match_at (Seq (NonCap (Str w)) id_group) s
  = option_map with_group (hit_after w s).
Proof.
  unfold match_at, hit_after.
  change (m (Seq (NonCap (Str w)) id_group) s None (fun _ c => Some c))
    with (m (Str w) s None (fun s' c' => m id_group s' c' (fun _ c => Some c))).
  rewrite m_Str. destruct (startswith w s); [|reflexivity].
  rewrite m_id_group. now destruct (take_id 11 (drop (len w) s)).
Qed.

Lemma match_at_any (s : string) :
  match_at pattern_any s = option_map with_group (hit_any s).
Proof.
  unfold match_at, hit_any, hit_after, pattern_any.
  set (k2 := fun s' c' => m (Star Dot) s' c' (fun _ c => Some c)).
  set (k1 := fun s' c' => m id_group s' c' k2).
  change (m (Seq (NonCap (Or (Str "v=") (Str "/"))) (Seq id_group (Star Dot)))
            s None (fun _ c => Some c))
    with (match m (Str "v=") s None k1 with
          | Some res => Some res
          | None => m (Str "/") s None k1
          end).
  assert (Hk1 : forall t, k1 t None = match take_id 11 t with
                                      | Some v => Some (Some v)
                                      | None => None
                                      end).
  { intros t. unfold k1. rewrite m_id_group.
    destruct (take_id 11 t); [|reflexivity].
    unfold k2. apply m_Star_Dot_end. }
  rewrite !m_Str, !Hk1.
  destruct (startswith "v=" s).
  - destruct (take_id 11 (drop (len "v=") s)); [reflexivity|].
    destruct (startswith "/" s); [|reflexivity].
    now destruct (take_id 11 (drop (len "/") s)).
  - destruct (startswith "/" s); [|reflexivity].
    now destruct (take_id 11 (drop (len "/") s)).
Qed.

Lemma search_leftmost (r : regex) (s : string) :
  search r s = leftmost (match_at r) s.
Proof.
  induction s as [|x s IH]; simpl; [reflexivity|].
  now rewrite IH.
Qed.

Lemma leftmost_ext {X} (f g : string -> option X) (s : string) :
  (forall t, f t = g t) -> leftmost f s = leftmost g s.
Proof.
  intros H. induction s as [|x s IH]; simpl; rewrite H; [reflexivity|].
  now rewrite IH.
Qed.

Lemma leftmost_map {X Y} (g : X -> Y) (f : string -> option X) (s : string) :
  leftmost (fun t => option_map g (f t)) s = option_map g (leftmost f s).
Proof.
  induction s as [|x s IH]; simpl.
  - now destruct (f "").
  - destruct (f (String x s)); [reflexivity | exact IH].
Qed.

Lemma leftmost_none {X} (f : string -> option X) (s : string) :
  leftmost f s = None -> forall pre t, s = pre ++ t -> f t = None.
Proof.
  induction s as [|x s IH]; simpl; intros H pre t E.
  - destruct pre; [|discriminate]. simpl in E; subst t.
    now destruct (f "").
  - destruct (f (String x s)) eqn:Hf; [discriminate|].
    destruct pre as [|y pre]; simpl in E.
    + now subst t.
    + injection E as _ E. now apply (IH H pre).
Qed.

Lemma leftmost_some {X} (f : string -> option X) (s : string) (x : X) :
  leftmost f s = Some x -> exists pre t, s = pre ++ t /\ f t = Some x.
Proof.
  induction s as [|y s IH]; simpl; intros H.
  - destruct (f "") eqn:Hf; [|discriminate].
    exists "", "". now injection H as <-.
  - destruct (f (String y s)) eqn:Hf.
    + injection H as <-. now exists "", (String y s).
    + destruct (IH H) as (pre & t & -> & Ht).
      now exists (String y pre), t.
Qed.

Lemma hit_after_marker (w v rest : string) :
  valid_id v -> hit_after w (w ++ v ++ rest) = Some v.
Proof.
  intros [Hlen Hall]. unfold hit_after.
  rewrite startswith_append, drop_append, <- Hlen.
  now apply take_id_append.
Qed.

Lemma hit_after_inv (w s v : string) :
  hit_after w s = Some v ->
  valid_id v /\ exists rest, s = w ++ v ++ rest.
Proof.
  unfold hit_after. destruct (startswith w s) eqn:Hw; [|discriminate].
  intros H. apply take_id_take in H as (Hv & Hle & Hall).
  split.
  - split; [|exact Hall]. rewrite Hv, len_take. lia.
  - exists (drop 11 (drop (len w) s)).
    rewrite Hv, take_drop. now apply startswith_split.
Qed.

Lemma hit_any_marker (mk v rest : string) :
  In mk ["v="; "/"] -> valid_id v -> hit_any (mk ++ v ++ rest) = Some v.
Proof.
  intros Hmk Hv. unfold hit_any.
  destruct Hmk as [<- | [<- | []]].
  - now rewrite hit_after_marker.
  - now rewrite (hit_after_marker "/").
Qed.

Lemma hit_any_inv (s v : string) :
  hit_any s = Some v ->
  valid_id v /\ exists mk rest, In mk ["v="; "/"] /\ s = mk ++ v ++ rest.
Proof.
  unfold hit_any. destruct (hit_after "v=" s) as [u|] eqn:H1.
  - intros [= ->]. apply hit_after_inv in H1 as (Hv & rest & ->).
    split; [exact Hv|]. exists "v=", rest. split; [now left | reflexivity].
  - intros H2. apply hit_after_inv in H2 as (Hv & rest & ->).
    split; [exact Hv|]. exists "/", rest.
    split; [right; now left | reflexivity].
Qed.

(** A pattern whose word ends with ["v="] or ["/"] is shadowed by the
    first pattern. *)
Lemma search_marker_none (w0 mk s : string) :
  In mk ["v="; "/"] ->
  leftmost hit_any s = None ->
  search (Seq (NonCap (Str (w0 ++ mk))) id_group) s = None.
Proof.
  intros Hmk Hnone. rewrite search_leftmost.
  rewrite (leftmost_ext _ _ _ (match_at_marker (w0 ++ mk))), leftmost_map.
  destruct (leftmost (hit_after (w0 ++ mk)) s) as [v|] eqn:Hv; [|reflexivity].
  apply leftmost_some in Hv as (pre & t & -> & Ht).
  exfalso. apply hit_after_inv in Ht as (Hv & rest & ->).
  pose proof (leftmost_none _ _ Hnone (pre ++ w0) (mk ++ v ++ rest)) as Hn.
  rewrite hit_any_marker in Hn by assumption.
  rewrite !append_assoc in Hn. now specialize (Hn eq_refl).
Qed.

(** The function returns what follows the leftmost ["v="] or ["/"]
    that 11 identifier characters follow: the patterns after the
    first never decide. *)
Lemma extract_video_id_leftmost (url : string) :
  extract_video_id url = leftmost hit_any url.
Proof.
  unfold extract_video_id, patterns, first_match.
  rewrite (search_leftmost pattern_any).
  rewrite (leftmost_ext _ _ _ match_at_any), leftmost_map.
  destruct (leftmost hit_any url) as [v|] eqn:Hv; [reflexivity|].
  simpl option_map. cbv iota.
  unfold pattern_embed, pattern_watch, pattern_short.
  rewrite (search_marker_none "embed" "/") by (simpl; auto).
  rewrite (search_marker_none "watch?" "v=") by (simpl; auto).
  rewrite (search_marker_none "youtu.be" "/") by (simpl; auto).
  reflexivity.
Qed.

Lemma leftmost_skip (p t : string) :
  hit_before p t = false ->
  leftmost hit_any (p ++ t) = leftmost hit_any t.
Proof.
  induction p as [|x p IH]; simpl; intros H; [reflexivity|].
  change (String x (p ++ t)) with (String x p ++ t) in *.
  destruct (hit_any (String x p ++ t)); [discriminate|].
  now apply IH.
Qed.

Lemma leftmost_here {X} (f : string -> option X) (s : string) (x : X) :
  f s = Some x -> leftmost f s = Some x.
Proof. intros H. destruct s; simpl; now rewrite H. Qed.

End SearchFacts.

(** * The Identifier Extractor *)

Lemma extract_video_id_valid (url v : string) :
  extract_video_id url = Some v -> valid_id v.
Proof.
  rewrite extract_video_id_leftmost. intros Hv.
  apply leftmost_some in Hv as (pre & t & _ & Ht).
  now apply hit_any_inv in Ht as (Hvalid & _).
Qed.

(** C10: for every input string, [extract_video_id] returns [None] or a
    string of exactly 11 characters, each an ASCII letter, a digit, a
    hyphen or an underscore. *)
Theorem extract_video_id_well_formed (url : string) :
  extract_video_id url = None
  \/ exists v, extract_video_id url = Some v
               /\ len v = 11 /\ all id_char v = true.
Proof.
  destruct (extract_video_id url) as [v|] eqn:Hv; [right | now left].
  exists v. split; [reflexivity|].
  exact (extract_video_id_valid url v Hv).
Qed.

(** C6, as stated, fails: the embed link
    [https://youtube-nocookie.com/embed/dQw4w9WgXcQ] carries the
    identifier [dQw4w9WgXcQ] after the word [embed/], and the function
    returns [youtube-noc], the 11 characters after the second slash. *)
Lemma extract_video_id_not_every_shape :
  ~ (forall pre mk id rest : string,
        In mk shape_markers -> valid_id id ->
        extract_video_id (pre ++ mk ++ id ++ rest) = Some id).
Proof.
  intros H.
  specialize (H "https://youtube-nocookie.com/" "embed/" "dQw4w9WgXcQ" "").
  assert (E : extract_video_id
                ("https://youtube-nocookie.com/" ++ "embed/" ++ "dQw4w9WgXcQ" ++ "")
              = Some "youtube-noc") by (vm_compute; reflexivity).
  rewrite H in E.
  - discriminate E.
  - simpl. auto.
  - split; vm_compute; reflexivity.
Qed.

(** C6, amended: for an identifier [id] of 11 identifier characters,
    the function returns [id] on [p ++ mk ++ id ++ rest] when [mk] is
    ["v="] or ["/"] and no earlier ["v="] or ["/"] of the string is
    followed by 11 identifier characters; such are the links
    [https://www.youtube.com/watch?v=id], [https://www.youtube.com/embed/id],
    [https://youtu.be/id] and the bare form [watch?v=id], whatever
    follows the identifier.  On a string in which no pattern has a
    match the function returns [None]. *)
Theorem extract_video_id_leftmost_marker (id rest : string) :
  valid_id id ->
  (forall p mk : string,
      In mk ["v="; "/"] ->
      hit_before p (mk ++ id ++ rest) = false ->
      extract_video_id (p ++ mk ++ id ++ rest) = Some id)
  /\ extract_video_id ("https://www.youtube.com/watch?v=" ++ id ++ rest) = Some id
  /\ extract_video_id ("https://www.youtube.com/embed/" ++ id ++ rest) = Some id
  /\ extract_video_id ("watch?v=" ++ id ++ rest) = Some id
  /\ extract_video_id ("https://youtu.be/" ++ id ++ rest) = Some id
  /\ (forall url : string,
         (forall pre mk v post : string,
             In mk shape_markers -> valid_id v ->
             url <> pre ++ mk ++ v ++ post) ->
         extract_video_id url = None).
Proof.
  intros Hid.
  assert (G : forall p mk : string,
             In mk ["v="; "/"] ->
             hit_before p (mk ++ id ++ rest) = false ->
             extract_video_id (p ++ mk ++ id ++ rest) = Some id).
  { intros p mk Hmk Hp.
    rewrite extract_video_id_leftmost, leftmost_skip by exact Hp.
    apply leftmost_here. now apply hit_any_marker. }
  split; [exact G|].
  split; [apply (G "https://www.youtube.com/watch?" "v=");
          [simpl; auto | reflexivity]|].
  split; [apply (G "https://www.youtube.com/embed" "/");
          [simpl; auto | reflexivity]|].
  split; [apply (G "watch?" "v="); [simpl; auto | reflexivity]|].
  split; [apply (G "https://youtu.be" "/"); [simpl; auto | reflexivity]|].
  intros url Hno. rewrite extract_video_id_leftmost.
  destruct (leftmost hit_any url) as [v|] eqn:Hv; [exfalso | reflexivity].
  apply leftmost_some in Hv as (pre & t & -> & Ht).
  apply hit_any_inv in Ht as (Hvalid & mk & post & Hmk & ->).
  apply (Hno pre mk v post); [|exact Hvalid | reflexivity].
  destruct Hmk as [<- | [<- | []]]; simpl; auto.
Qed.

Lemma extract_video_id_leftmost_marker_witness :
  valid_id "dQw4w9WgXcQ"
  /\ extract_video_id ("https://youtu.be/" ++ "dQw4w9WgXcQ" ++ "?t=42")
     = Some "dQw4w9WgXcQ".
Proof.
  assert (H : valid_id "dQw4w9WgXcQ") by (split; reflexivity).
  split; [exact H|].
  exact (proj1 (proj2 (proj2 (proj2 (proj2
           (extract_video_id_leftmost_marker "dQw4w9WgXcQ" "?t=42" H)))))).
Defined.

(** * Facts about the chain of tiers *)

Section ChainFacts.

Context {A : TranscriptApi}.

Lemma tier_ok (attempt : Src.M A (FetchedTranscript * string))
              (rest : Src.M A resolved) data lang :
  Src.outcome attempt = Ok (data, lang) ->
  tier attempt rest = (Src.calls attempt, Ok (Some data, Some lang)).
Proof.
  destruct attempt as [l [[d g]|e]]; simpl; intros H; [|discriminate].
  now injection H as -> ->.
Qed.

Lemma tier_fails (attempt : Src.M A (FetchedTranscript * string))
                 (rest : Src.M A resolved) :
  fails attempt ->
  tier attempt rest
  = ((Src.calls attempt ++ Src.calls rest)%list, Src.outcome rest).
Proof.
  destruct attempt as [l [[d g]|e]]; simpl; intros [e' H];
    [discriminate|].
  now destruct rest.
Qed.

Lemma tier4_chain (ts : list (Transcript A)) :
  tier4 ts = chain (map (fun t => fetch_as t (language A t)) ts).
Proof. induction ts as [|t ts IH]; simpl; [reflexivity | now rewrite IH]. Qed.

Lemma tiers_chain (tl : TranscriptList A) :
  tier (tier1 tl) (tier (tier2 tl) (tier (tier3 tl) (tier4 (iter A tl))))
  = chain (attempts A tl).
Proof. rewrite tier4_chain. reflexivity. Qed.

(** No failure of an attempt leaves the chain. *)
Lemma chain_returns (l : list (Src.M A (FetchedTranscript * string))) :
  exists r, Src.outcome (chain l) = Ok r.
Proof.
  induction l as [|a l [r IH]]; simpl.
  - now exists (None, None).
  - destruct a as [c [[d g]|e]]; simpl.
    + now exists (Some d, Some g).
    + destruct (chain l) as [c' r']. simpl in *. now exists r.
Qed.

Lemma chain_first (failed rest : list (Src.M A (FetchedTranscript * string)))
                  (a : Src.M A (FetchedTranscript * string)) data lang :
  Forall fails failed ->
  Src.outcome a = Ok (data, lang) ->
  chain (failed ++ a :: rest)
  = ((calls_of failed ++ Src.calls a)%list, Ok (Some data, Some lang)).
Proof.
  intros Hf Ha. induction Hf as [|b failed Hb Hf IH]; simpl.
  - now apply tier_ok.
  - unfold chain in *. rewrite (tier_fails _ _ Hb), IH. simpl.
    unfold calls_of. simpl. now rewrite app_assoc.
Qed.

Lemma chain_none (l : list (Src.M A (FetchedTranscript * string))) :
  Forall fails l -> chain l = (calls_of l, Ok (None, None)).
Proof.
  intros Hf. induction Hf as [|b l Hb Hf IH]; [reflexivity|].
  simpl. unfold chain in *. rewrite (tier_fails _ _ Hb), IH. reflexivity.
Qed.

Lemma get_transcript_listed (video_id : string) (tl : TranscriptList A) :
  new_api A = Ok tt ->
  list_transcripts A video_id = Ok tl ->
  get_transcript A video_id
  = (CallNew :: CallList video_id :: Src.calls (chain (attempts A tl)),
     Src.outcome (chain (attempts A tl))).
Proof.
  intros Hnew Hlist. unfold get_transcript.
  rewrite Hnew, Hlist. unfold Src.bind, Src.perform.
  rewrite tiers_chain.
  destruct (chain_returns (attempts A tl)) as [r Hr].
  destruct (chain (attempts A tl)) as [c o]. simpl in *. now subst o.
Qed.

Lemma get_transcript_not_listed (video_id : string) (e : exception) :
  listing_fails A video_id e ->
  get_transcript A video_id
  = (listing_calls A video_id, Raise (reraise e)).
Proof.
  unfold get_transcript, listing_calls.
  intros [Hnew | [Hnew Hlist]]; rewrite Hnew; simpl; [reflexivity|].
  now rewrite Hlist.
Qed.

Lemma get_transcript_first
  (video_id : string) (tl : TranscriptList A)
  (failed rest : list (Src.M A (FetchedTranscript * string)))
  (a : Src.M A (FetchedTranscript * string)) data lang :
  new_api A = Ok tt ->
  list_transcripts A video_id = Ok tl ->
  attempts A tl = (failed ++ a :: rest)%list ->
  Forall fails failed ->
  Src.outcome a = Ok (data, lang) ->
  get_transcript A video_id
  = (CallNew :: CallList video_id :: (calls_of failed ++ Src.calls a)%list,
     Ok (Some data, Some lang)).
Proof.
  intros Hnew Hlist E Hf Ha.
  rewrite (get_transcript_listed video_id tl Hnew Hlist).
  rewrite E, (chain_first failed rest a data lang Hf Ha). reflexivity.
Qed.

Lemma get_transcript_none (video_id : string) (tl : TranscriptList A) :
  new_api A = Ok tt ->
  list_transcripts A video_id = Ok tl ->
  Forall fails (attempts A tl) ->
  get_transcript A video_id
  = (CallNew :: CallList video_id :: calls_of (attempts A tl),
     Ok (None, None)).
Proof.
  intros Hnew Hlist Hf.
  rewrite (get_transcript_listed video_id tl Hnew Hlist).
  rewrite (chain_none _ Hf). reflexivity.
Qed.

End ChainFacts.

(** * The Transcript Resolver on any source *)

(** C4: once the tracks are listed, no failure of a tier leaves
    [get_transcript]; the attempts that fail are passed over in order
    and the first that succeeds decides, after each attempt before it
    has been made; when every attempt fails, all have been made and
    [(None, None)] is returned. *)
Theorem tier_failures_fall_through
  (A : TranscriptApi) (video_id : string) (tl : TranscriptList A) :
  new_api A = Ok tt ->
  list_transcripts A video_id = Ok tl ->
  (exists r, Src.outcome (get_transcript A video_id) = Ok r)
  /\ (forall failed a rest data lang,
         attempts A tl = (failed ++ a :: rest)%list ->
         Forall fails failed ->
         Src.outcome a = Ok (data, lang) ->
         get_transcript A video_id
         = (CallNew :: CallList video_id
              :: (calls_of failed ++ Src.calls a)%list,
            Ok (Some data, Some lang)))
  /\ (Forall fails (attempts A tl) ->
      get_transcript A video_id
      = (CallNew :: CallList video_id :: calls_of (attempts A tl),
         Ok (None, None))).
Proof.
  intros Hnew Hlist. split; [|split].
  - rewrite (get_transcript_listed video_id tl Hnew Hlist).
    apply chain_returns.
  - intros failed a rest data lang E Hf Ha.
    now apply (get_transcript_first video_id tl failed rest).
  - now apply get_transcript_none.
Qed.

Lemma tier_failures_fall_through_witness :
  let ts := [blocked_french; manual_french] in
  let A := source (serving ts) missing_argument in
  new_api A = Ok tt
  /\ list_transcripts A "dQw4w9WgXcQ" = Ok ts
  /\ Forall fails [@tier1 A ts; @tier2 A ts; @tier3 A ts;
                   @fetch_as A blocked_french "French"]
  /\ get_transcript A "dQw4w9WgXcQ"
     = ([CallNew; CallList "dQw4w9WgXcQ"; CallFind ["en"]; CallFindManual;
         CallFindGenerated ["en"]; CallFetch (A := A) blocked_french;
         CallFetch (A := A) manual_french],
        Ok (Some sample_entries, Some "French")).
Proof.
  intros ts A.
  assert (Hf : Forall fails [@tier1 A ts; @tier2 A ts; @tier3 A ts;
                             @fetch_as A blocked_french "French"])
    by (repeat constructor; eexists; reflexivity).
  split; [reflexivity|]. split; [reflexivity|]. split; [exact Hf|].
  exact (proj1 (proj2 (tier_failures_fall_through A "dQw4w9WgXcQ" ts
                         eq_refl eq_refl))
           [@tier1 A ts; @tier2 A ts; @tier3 A ts;
            @fetch_as A blocked_french "French"]
           (@fetch_as A manual_french "French") []
           sample_entries "French" eq_refl Hf eq_refl).
Defined.

(** C9, as stated, fails: a failure that the source raises inside a
    tier is not reported.  The only track of the video is fetched, the
    fetch raises "video unavailable", and [get_transcript] returns
    [(None, None)] without raising. *)
Lemma tier_failure_not_reported :
  ~ (forall (A : TranscriptApi) (video_id : string) (tl : TranscriptList A)
            (t : Transcript A) (e : exception),
        new_api A = Ok tt ->
        list_transcripts A video_id = Ok tl ->
        In (CallFetch t) (Src.calls (get_transcript A video_id)) ->
        fetch A t = Raise e ->
        exists msg,
          Src.outcome (get_transcript A video_id) = Raise (Exception msg)).
Proof.
  intros H.
  destruct (H (source (serving [blocked_french]) missing_argument)
              "dQw4w9WgXcQ" [blocked_french] blocked_french unavailable
              eq_refl eq_refl) as [msg Hmsg].
  - vm_compute. repeat (first [left; reflexivity | right]).
  - reflexivity.
  - vm_compute in Hmsg. discriminate Hmsg.
Qed.

(** C9, amended: a failure that the source raises before any tier runs,
    when the client is built or when the tracks are listed, leaves
    [get_transcript] as one [Exception] whose message tells the class:
    transcripts disabled, no transcript found, video unavailable, or,
    for any other class, a fetch error that carries [str(e)].  The call
    that failed is made once and none is made after it. *)
Theorem listing_failure_reported
  (A : TranscriptApi) (video_id : string) (e : exception) :
  listing_fails A video_id e ->
  (exc_class e = TranscriptsDisabled ->
   Src.outcome (get_transcript A video_id)
   = Raise (Exception "Transcripts are disabled for this video"))
  /\ (exc_class e = NoTranscriptFound ->
      Src.outcome (get_transcript A video_id)
      = Raise (Exception "No transcripts found for this video"))
  /\ (exc_class e = VideoUnavailable ->
      Src.outcome (get_transcript A video_id)
      = Raise (Exception "Video is unavailable or private"))
  /\ (exc_class e = PlainException \/ (exists name, exc_class e = OtherError name) ->
      Src.outcome (get_transcript A video_id)
      = Raise (Exception ("Error fetching transcript: " ++ exc_str e)))
  /\ (Src.calls (get_transcript A video_id) = [CallNew]
      \/ Src.calls (get_transcript A video_id) = [CallNew; CallList video_id]).
Proof.
  intros Hfail. rewrite (get_transcript_not_listed video_id e Hfail).
  unfold reraise. simpl.
  repeat split.
  - now intros ->.
  - now intros ->.
  - now intros ->.
  - intros [-> | [name ->]]; reflexivity.
  - unfold listing_calls. destruct (new_api A); [now right | now left].
Qed.

Lemma listing_failure_reported_witness :
  let A := source (fun _ => Raise unavailable) first_manual in
  listing_fails A "dQw4w9WgXcQ" unavailable
  /\ Src.outcome (get_transcript A "dQw4w9WgXcQ")
     = Raise (Exception "Video is unavailable or private").
Proof.
  intros A.
  assert (H : listing_fails A "dQw4w9WgXcQ" unavailable)
    by (right; split; reflexivity).
  split; [exact H|].
  exact (proj1 (proj2 (proj2 (listing_failure_reported A "dQw4w9WgXcQ"
                                unavailable H))) eq_refl).
Defined.

(** * The Transcript Resolver on track sets *)

Section TrackFacts.

Lemma lookup_in (gen : bool) (code : string) (ts : TrackSet) (t : Track) :
  lookup gen code ts = Some t ->
  In t ts /\ is_generated t = gen /\ language_code t = code.
Proof.
  unfold lookup. intros H. apply find_some in H as [Hin Hb].
  apply andb_true_iff in Hb as [Hg Hc].
  apply Bool.eqb_prop in Hg. apply String.eqb_eq in Hc. auto.
Qed.

Lemma lookup_none (gen : bool) (code : string) (ts : TrackSet) (t : Track) :
  lookup gen code ts = None ->
  In t ts -> is_generated t = gen -> language_code t <> code.
Proof.
  unfold lookup. intros H Hin Hg Hc.
  pose proof (find_none _ _ H t Hin) as Hb. simpl in Hb.
  rewrite Hg, Hc, Bool.eqb_reflx, String.eqb_refl in Hb. discriminate.
Qed.

(** Tier 1 finds an English track of the set as soon as it has one. *)
Lemma find_english (ts : TrackSet) :
  (exists t, In t ts /\ english t) ->
  exists t, find_by_codes [false; true] ["en"] ts = Ok t
            /\ In t ts /\ english t.
Proof.
  intros (t & Hin & Hen). simpl.
  destruct (lookup false "en" ts) as [u|] eqn:Hm.
  - exists u. apply lookup_in in Hm as (? & _ & ?). auto.
  - destruct (lookup true "en" ts) as [u|] eqn:Hg.
    + exists u. apply lookup_in in Hg as (? & _ & ?). auto.
    + exfalso. destruct (is_generated t) eqn:Ht.
      * now apply (lookup_none true "en" ts t Hg).
      * now apply (lookup_none false "en" ts t Hm).
Qed.

(** No English track: the lookups of tiers 1 and 3 fail. *)
Lemma find_no_english (kinds : list bool) (ts : TrackSet) :
  (forall t, In t ts -> ~ english t) ->
  find_by_codes kinds ["en"] ts = Raise no_transcript_found.
Proof.
  intros Hno. simpl.
  assert (E : lookup_kinds kinds "en" ts = None); [|now rewrite E].
  induction kinds as [|g kinds IH]; simpl; [reflexivity|].
  destruct (lookup g "en" ts) as [u|] eqn:Hu; [|exact IH].
  apply lookup_in in Hu as (Hin & _ & Hen). now destruct (Hno u Hin).
Qed.

End TrackFacts.

Section SourceFacts.

Variable served : string -> result TrackSet.
Variable manual_call : TrackSet -> result Track.

Let A : TranscriptApi := source served manual_call.

Lemma tier1_found (ts : TrackSet) (t : Track) data :
  find_by_codes [false; true] ["en"] ts = Ok t ->
  fetched t = Ok data ->
  @tier1 A ts = ([CallFind ["en"]; CallFetch (A := A) t], Ok (data, "English")).
Proof.
  intros Hfind Hdata. unfold tier1, fetch_as.
  change (find_transcript A ts ["en"])
    with (find_by_codes [false; true] ["en"] ts).
  rewrite Hfind. unfold Src.bind, Src.perform.
  change (fetch A t) with (fetched t). now rewrite Hdata.
Qed.

Lemma tier1_not_found (ts : TrackSet) :
  (forall t, In t ts -> ~ english t) ->
  @tier1 A ts = ([CallFind ["en"]], Raise no_transcript_found).
Proof.
  intros Hno. unfold tier1.
  change (find_transcript A ts ["en"])
    with (find_by_codes [false; true] ["en"] ts).
  now rewrite (find_no_english _ ts Hno).
Qed.

Lemma tier3_not_found (ts : TrackSet) :
  (forall t, In t ts -> ~ english t) ->
  @tier3 A ts = ([CallFindGenerated ["en"]], Raise no_transcript_found).
Proof.
  intros Hno. unfold tier3.
  change (find_generated_transcript A ts ["en"])
    with (find_by_codes [true] ["en"] ts).
  now rewrite (find_no_english _ ts Hno).
Qed.


Lemma tier2_not_found (ts : TrackSet) (e : exception) :
  manual_call ts = Raise e ->
  @tier2 A ts = ([CallFindManual], Raise e).
Proof.
  intros Hcall. unfold tier2.
  change (find_manually_created_transcript A ts) with (manual_call ts).
  now rewrite Hcall.
Qed.



(** A set whose English track is the one tier 1 finds. *)
Lemma english_found (video_id : string) (ts : TrackSet) (t : Track) data :
  served video_id = Ok ts ->
  find_by_codes [false; true] ["en"] ts = Ok t ->
  fetched t = Ok data ->
  get_transcript A video_id
  = ([CallNew; CallList video_id; CallFind ["en"]; CallFetch (A := A) t],
     Ok (Some data, Some "English")).
Proof.
  intros Hserved Hfind Hdata.
  rewrite (get_transcript_first (A := A) video_id ts [] _ (@tier1 A ts)
             data "English" eq_refl Hserved eq_refl (Forall_nil _));
    rewrite (tier1_found _ _ _ Hfind Hdata); reflexivity.
Qed.

(** No track at all: every lookup fails and nothing is fetched. *)
Lemma no_track (video_id : string) :
  manual_call_sound manual_call ->
  served video_id = Ok [] ->
  get_transcript A video_id
  = ([CallNew; CallList video_id; CallFind ["en"]; CallFindManual;
      CallFindGenerated ["en"]],
     Ok (None, None)).
Proof.
  intros Hsound Hserved.
  assert (Hno : forall u : Track, In u [] -> ~ english u) by (intros u []).
  destruct (manual_call []) as [u|e] eqn:Hcall;
    [now destruct (Hsound _ _ Hcall) as [[] _]|].
  rewrite (get_transcript_none (A := A) video_id [] eq_refl Hserved).
  - unfold attempts, calls_of.
    rewrite (tier1_not_found _ Hno), (tier2_not_found _ _ Hcall),
      (tier3_not_found _ Hno). reflexivity.
  - unfold attempts.
    rewrite (tier1_not_found _ Hno), (tier2_not_found _ _ Hcall),
      (tier3_not_found _ Hno).
    repeat constructor; now eexists.
Qed.

End SourceFacts.

(** C1, as stated, fails: an English entry is not always the one
    returned.  On the set of an English track whose fetch fails and a
    manually authored French track, tier 1 finds the English track, its
    fetch raises, and the French track is returned with the label
    "French".  On the set of a manually authored French track and a
    track listed under [en-US], tier 1, which asks for the code [en],
    finds nothing and the French track is returned as well. *)
Lemma english_entry_not_always_returned :
  Src.outcome (get_transcript
                 (source (serving [manual_french; english_us]) missing_argument)
                 "dQw4w9WgXcQ")
  = Ok (Some sample_entries, Some "French")
  /\ ~ (forall (served : string -> result TrackSet)
               (manual_call : TrackSet -> result Track)
               (video_id : string) (ts : TrackSet),
           manual_call_sound manual_call ->
           served video_id = Ok ts ->
           (exists t, In t ts /\ english t) ->
           (exists t, In t ts /\ manual t /\ ~ english t) ->
           exists t data,
             In t ts /\ english t
             /\ Src.outcome (get_transcript (source served manual_call) video_id)
                = Ok (Some data, Some "English")).
Proof.
  split; [reflexivity|]. intros H.
  destruct (H (serving [blocked_english; manual_french]) missing_argument
              "dQw4w9WgXcQ" [blocked_english; manual_french])
    as (t & data & _ & _ & Hout).
  - intros ts t E. discriminate E.
  - reflexivity.
  - exists blocked_english. split; [simpl; auto | reflexivity].
  - exists manual_french. split; [simpl; auto|].
    split; [reflexivity | discriminate].
  - vm_compute in Hout. discriminate Hout.
Qed.

(** C1, amended: on a track set that has an entry listed under the
    language code [en] and a manually authored entry in another
    language, and whose entries listed under [en] can be fetched,
    [get_transcript] asks for the English track, fetches it and returns
    its entries with the label "English"; no other tier is consulted. *)
Theorem english_track_preferred
  (served : string -> result TrackSet)
  (manual_call : TrackSet -> result Track)
  (video_id : string) (ts : TrackSet) :
  served video_id = Ok ts ->
  (exists t, In t ts /\ english t) ->
  (exists t, In t ts /\ manual t /\ ~ english t) ->
  (forall t, In t ts -> english t -> exists data, fetched t = Ok data) ->
  exists t data,
    In t ts /\ english t /\ fetched t = Ok data
    /\ get_transcript (source served manual_call) video_id
       = ([CallNew; CallList video_id; CallFind ["en"];
           CallFetch (A := source served manual_call) t],
          Ok (Some data, Some "English")).
Proof.
  intros Hserved Hen _ Hfetch.
  destruct (find_english ts Hen) as (t & Hfind & Hin & Ht).
  destruct (Hfetch t Hin Ht) as [data Hdata].
  exists t, data. repeat split; try assumption.
  now apply english_found with (ts := ts).
Qed.

Lemma english_track_preferred_witness :
  let ts := [manual_french; generated_english] in
  serving ts "dQw4w9WgXcQ" = Ok ts
  /\ exists t data,
       In t ts /\ english t /\ fetched t = Ok data
       /\ get_transcript (source (serving ts) first_manual) "dQw4w9WgXcQ"
          = ([CallNew; CallList "dQw4w9WgXcQ"; CallFind ["en"];
              CallFetch (A := source (serving ts) first_manual) t],
             Ok (Some data, Some "English")).
Proof.
  intros ts. split; [reflexivity|].
  apply (english_track_preferred (serving ts) first_manual "dQw4w9WgXcQ" ts).
  - reflexivity.
  - exists generated_english. split; [simpl; auto | reflexivity].
  - exists manual_french. split; [simpl; auto|].
    split; [reflexivity | discriminate].
  - intros t [<- | [<- | []]] H; [discriminate H|].
    exists sample_entries. reflexivity.
Defined.


Lemma first_manual_sound : manual_call_sound first_manual.
Proof.
  intros ts t. unfold first_manual.
  destruct (find (fun u => negb (is_generated u)) ts) as [u|] eqn:Hu;
    [|discriminate].
  intros [= <-]. apply find_some in Hu as [Hin Hb].
  split; [exact Hin|]. unfold manual. now destruct (is_generated u).
Defined.






(** The label "English (auto-generated)" is returned when the track
    that tier 1 finds cannot be fetched and tier 2 yields nothing. *)
Example auto_generated_label_reached :
  let blocked_english :=
    {| track_language := "English"; language_code := "en";
       is_generated := false; fetched := Raise unavailable |} in
  Src.outcome (get_transcript
                 (source (serving [blocked_english; generated_english])
                         missing_argument) "dQw4w9WgXcQ")
  = Ok (Some sample_entries, Some "English (auto-generated)").
Proof. reflexivity. Qed.

(** * The handler *)

Section HandlerFacts.

Variable A : TranscriptApi.

Lemma extract_video_id_link (yt_link v : string) :
  extract_video_id yt_link = Some v ->
  truthy yt_link = true /\ exists c v', v = String c v'.
Proof.
  intros H. split.
  - destruct yt_link; [discriminate H | reflexivity].
  - apply extract_video_id_valid in H as [Hlen _].
    destruct v as [|c v']; [discriminate Hlen | now exists c, v'].
Qed.

Lemma fetch_stage_nothing (video_id : string) :
  Src.outcome (get_transcript A video_id) = Ok (None, None) ->
  fetch_stage A video_id
  = ([st_error "❌ No transcript available for this video."], None).
Proof. intros H. unfold fetch_stage. now rewrite H. Qed.

Lemma analyze_video_nothing (yt_link video_id summary_type user_query : string) :
  extract_video_id yt_link = Some video_id ->
  Src.outcome (get_transcript A video_id) = Ok (None, None) ->
  analyze_video A true yt_link summary_type user_query
  = ([st_info ("✓ Video ID: " ++ video_id);
      st_error "❌ No transcript available for this video."],
     Stopped).
Proof.
  intros Hid Hnone. unfold analyze_video.
  destruct (extract_video_id_link _ _ Hid) as [Hlink (c & v' & Hv)].
  rewrite Hlink, Hid. simpl negb. cbv iota.
  rewrite (fetch_stage_nothing _ Hnone). subst video_id. reflexivity.
Qed.

End HandlerFacts.

(** C5: when the track set of the video is empty, no tier yields a
    track: [get_transcript] makes the three lookups, fetches nothing
    and returns [(None, None)], and the handler shows "No transcript
    available for this video." and stops. *)
Theorem empty_track_set
  (served : string -> result TrackSet)
  (manual_call : TrackSet -> result Track)
  (yt_link video_id summary_type user_query : string) :
  manual_call_sound manual_call ->
  served video_id = Ok [] ->
  get_transcript (source served manual_call) video_id
  = ([CallNew; CallList video_id; CallFind ["en"]; CallFindManual;
      CallFindGenerated ["en"]],
     Ok (None, None))
  /\ fetch_stage (source served manual_call) video_id
     = ([st_error "❌ No transcript available for this video."], None)
  /\ (extract_video_id yt_link = Some video_id ->
      analyze_video (source served manual_call) true
                    yt_link summary_type user_query
      = ([st_info ("✓ Video ID: " ++ video_id);
          st_error "❌ No transcript available for this video."],
         Stopped)).
Proof.
  intros Hsound Hserved.
  pose proof (no_track served manual_call video_id Hsound Hserved) as H.
  split; [exact H|].
  assert (Hout : Src.outcome (get_transcript (source served manual_call) video_id)
                 = Ok (None, None)) by now rewrite H.
  split.
  - now apply fetch_stage_nothing.
  - intros Hid. now apply analyze_video_nothing.
Qed.

Lemma empty_track_set_witness :
  manual_call_sound first_manual
  /\ serving [] "dQw4w9WgXcQ" = Ok []
  /\ analyze_video (source (serving []) first_manual) true
                   "https://youtu.be/dQw4w9WgXcQ" "Key Points" ""
     = ([st_info "✓ Video ID: dQw4w9WgXcQ";
         st_error "❌ No transcript available for this video."],
        Stopped).
Proof.
  split; [exact first_manual_sound|]. split; [reflexivity|].
  exact (proj2 (proj2 (empty_track_set (serving []) first_manual
                         "https://youtu.be/dQw4w9WgXcQ" "dQw4w9WgXcQ"
                         "Key Points" "" first_manual_sound eq_refl))
           eq_refl).
Defined.

(** * The Prompt Composer *)

Lemma truncation_warning_text :
  truncation_warning
  = st_warning "Transcript truncated to 30000 characters for processing.".
Proof. vm_compute. reflexivity. Qed.

Lemma truncate_long (text : string) :
  MAX_CHARS < len text ->
  truncate text = (take MAX_CHARS text, [truncation_warning]).
Proof.
  intros H. unfold truncate. apply Nat.ltb_lt in H. now rewrite H.
Qed.

Lemma truncate_short (text : string) :
  len text <= MAX_CHARS -> truncate text = (text, []).
Proof.
  intros H. unfold truncate.
  replace (MAX_CHARS <? len text) with false; [reflexivity|].
  symmetry. apply Nat.ltb_ge. exact H.
Qed.

Lemma compose_found (summary_type user_query language text instruction : string) :
  dict_get summary_instructions summary_type = Some instruction ->
  compose summary_type user_query language text
  = (snd (truncate text),
     Ok (prompt_of instruction user_query language (fst (truncate text)))).
Proof.
  intros H. unfold compose. destruct (truncate text) as [text' shown].
  now rewrite H.
Qed.

(** C7: a transcript text of more than 30,000 characters is cut to its
    first 30,000 characters, the warning is shown, and the prompt holds
    the cut text, and nothing of what was cut off, between the language
    line and the formatting directive; a text of at most 30,000
    characters stands there unchanged and no warning is shown. *)
Theorem truncation_at_ceiling (text : string) :
  (MAX_CHARS < len text ->
   truncate text
   = (take MAX_CHARS text,
      [st_warning "Transcript truncated to 30000 characters for processing."])
   /\ len (take MAX_CHARS text) = 30000
   /\ (exists cut, text = take MAX_CHARS text ++ cut)
   /\ forall summary_type user_query language instruction,
        dict_get summary_instructions summary_type = Some instruction ->
        compose summary_type user_query language text
        = ([st_warning "Transcript truncated to 30000 characters for processing."],
           Ok ("You are an expert video content analyst. " ++ nl
               ++ "**Task:** " ++ instruction ++ nl
               ++ "**Additional User Instructions:** "
               ++ match user_query with
                  | EmptyString => "None"
                  | String _ _ => user_query
                  end ++ nl
               ++ "**Video Transcript (Language: " ++ language ++ "):**" ++ nl
               ++ take MAX_CHARS text ++ nl
               ++ "Please provide a well-structured response with clear sections and formatting.")))
  /\ (len text <= MAX_CHARS ->
      truncate text = (text, [])
      /\ forall summary_type user_query language instruction,
           dict_get summary_instructions summary_type = Some instruction ->
           compose summary_type user_query language text
           = ([],
              Ok ("You are an expert video content analyst. " ++ nl
                  ++ "**Task:** " ++ instruction ++ nl
                  ++ "**Additional User Instructions:** "
                  ++ match user_query with
                     | EmptyString => "None"
                     | String _ _ => user_query
                     end ++ nl
                  ++ "**Video Transcript (Language: " ++ language ++ "):**" ++ nl
                  ++ text ++ nl
                  ++ "Please provide a well-structured response with clear sections and formatting."))).
Proof.
  split; intros H.
  - rewrite <- truncation_warning_text.
    split; [now apply truncate_long|]. split; [|split].
    + rewrite len_take. apply Nat.min_l. now apply Nat.lt_le_incl.
    + exists (drop MAX_CHARS text). symmetry. apply take_drop.
    + intros st uq lang instr Hget.
      rewrite (compose_found _ _ _ _ _ Hget), (truncate_long _ H).
      cbn [fst snd]. unfold prompt_of, persona, directive, instructions_slot.
      now destruct uq.
  - split; [now apply truncate_short|].
    intros st uq lang instr Hget.
    rewrite (compose_found _ _ _ _ _ Hget), (truncate_short _ H).
    cbn [fst snd]. unfold prompt_of, persona, directive, instructions_slot.
    now destruct uq.
Qed.

Lemma truncation_at_ceiling_witness :
  let text := replicate 35000 "a" in
  (len text =? 35000) = true
  /\ MAX_CHARS < len text
  /\ snd (truncate text)
     = [st_warning "Transcript truncated to 30000 characters for processing."]
  /\ (len (fst (truncate text)) =? 30000) = true
  /\ snd (compose "Key Points" "" "English" text)
     = Ok ("You are an expert video content analyst. " ++ nl
           ++ "**Task:** Extract and list the key points and main takeaways in bullet format." ++ nl
           ++ "**Additional User Instructions:** None" ++ nl
           ++ "**Video Transcript (Language: English):**" ++ nl
           ++ take MAX_CHARS text ++ nl
           ++ "Please provide a well-structured response with clear sections and formatting.").
Proof.
  intros text.
  assert (H : MAX_CHARS < len text)
    by (apply Nat.ltb_lt; vm_compute; reflexivity).
  split; [vm_compute; reflexivity|]. split; [exact H|].
  destruct (proj1 (truncation_at_ceiling text) H) as (Ht & Hlen & _ & Hc).
  rewrite Ht. split; [reflexivity|]. split.
  - change ((len (take MAX_CHARS text) =? 30000) = true).
    rewrite Hlen. apply Nat.eqb_refl.
  - rewrite (Hc "Key Points" "" "English"
               "Extract and list the key points and main takeaways in bullet format."
               eq_refl).
    reflexivity.
Defined.

(** C8: for a summary type of the select box, the prompt is, in order,
    the persona preamble, the instruction of that summary type, the
    user's instructions, the language label, the text after truncation
    and the formatting directive; the slot of the user's instructions
    holds "None" when they are empty, and is never empty. *)
Theorem prompt_layout (summary_type user_query language text : string) :
  In summary_type summary_types ->
  exists instruction slot : string,
    dict_get summary_instructions summary_type = Some instruction
    /\ ((summary_type = "Comprehensive"
         /\ instruction
            = "Provide a detailed, comprehensive summary covering all major topics and subtopics.")
        \/ (summary_type = "Key Points"
            /\ instruction
               = "Extract and list the key points and main takeaways in bullet format.")
        \/ (summary_type = "Quick Overview"
            /\ instruction
               = "Provide a brief, concise overview in 3-4 sentences.")
        \/ (summary_type = "Detailed Analysis"
            /\ instruction
               = "Provide an in-depth analysis including themes, arguments, and insights."))
    /\ (user_query = "" -> slot = "None")
    /\ (user_query <> "" -> slot = user_query)
    /\ slot <> ""
    /\ snd (compose summary_type user_query language text)
       = Ok ("You are an expert video content analyst. " ++ nl
             ++ "**Task:** " ++ instruction ++ nl
             ++ "**Additional User Instructions:** " ++ slot ++ nl
             ++ "**Video Transcript (Language: " ++ language ++ "):**" ++ nl
             ++ fst (truncate text) ++ nl
             ++ "Please provide a well-structured response with clear sections and formatting.").
Proof.
  intros Hin.
  assert (Hget : exists instruction,
             dict_get summary_instructions summary_type = Some instruction
             /\ ((summary_type = "Comprehensive"
                  /\ instruction
                     = "Provide a detailed, comprehensive summary covering all major topics and subtopics.")
                 \/ (summary_type = "Key Points"
                     /\ instruction
                        = "Extract and list the key points and main takeaways in bullet format.")
                 \/ (summary_type = "Quick Overview"
                     /\ instruction
                        = "Provide a brief, concise overview in 3-4 sentences.")
                 \/ (summary_type = "Detailed Analysis"
                     /\ instruction
                        = "Provide an in-depth analysis including themes, arguments, and insights."))).
  { destruct Hin as [<- | [<- | [<- | [<- | []]]]]; eexists;
      (split; [reflexivity|]).
    - left. now split.
    - right; left. now split.
    - right; right; left. now split.
    - right; right; right. now split. }
  destruct Hget as (instruction & Hget & Htable).
  exists instruction, (instructions_slot user_query).
  split; [exact Hget|]. split; [exact Htable|].
  split; [now intros ->|].
  split; [intros Hq; destruct user_query; [now destruct Hq | reflexivity]|].
  split; [destruct user_query; discriminate|].
  rewrite (compose_found _ _ _ _ _ Hget). reflexivity.
Qed.

Lemma prompt_layout_witness :
  Forall (fun mode => In (fst mode) summary_types
            /\ snd (compose (fst mode) "" "English" "hello world")
               = Ok ("You are an expert video content analyst. " ++ nl
                     ++ "**Task:** " ++ snd mode ++ nl
                     ++ "**Additional User Instructions:** None" ++ nl
                     ++ "**Video Transcript (Language: English):**" ++ nl
                     ++ "hello world" ++ nl
                     ++ "Please provide a well-structured response with clear sections and formatting."))
    [("Comprehensive",
      "Provide a detailed, comprehensive summary covering all major topics and subtopics.");
     ("Key Points",
      "Extract and list the key points and main takeaways in bullet format.");
     ("Quick Overview",
      "Provide a brief, concise overview in 3-4 sentences.");
     ("Detailed Analysis",
      "Provide an in-depth analysis including themes, arguments, and insights.")].
Proof.
  assert (W : forall mode template : string,
             In mode summary_types ->
             dict_get summary_instructions mode = Some template ->
             In mode summary_types
             /\ snd (compose mode "" "English" "hello world")
                = Ok ("You are an expert video content analyst. " ++ nl
                      ++ "**Task:** " ++ template ++ nl
                      ++ "**Additional User Instructions:** None" ++ nl
                      ++ "**Video Transcript (Language: English):**" ++ nl
                      ++ "hello world" ++ nl
                      ++ "Please provide a well-structured response with clear sections and formatting.")).
  { intros mode template Hin Ht. split; [exact Hin|].
    destruct (prompt_layout mode "" "English" "hello world" Hin)
      as (instruction & slot & Hget & _ & Hnone & _ & _ & Hprompt).
    rewrite Hprompt, (Hnone eq_refl).
    rewrite Ht in Hget. injection Hget as <-. reflexivity. }
  repeat constructor; cbn [fst snd]; apply W; simpl; auto.
Defined.

(** The end-to-end scenario of the specification. *)
Example end_to_end :
  analyze_video (source (serving [manual_english]) first_manual) true
                "https://youtu.be/dQw4w9WgXcQ" "Quick Overview" ""
  = ([st_info "✓ Video ID: dQw4w9WgXcQ";
      st_success "✅ Transcript fetched! (2 words, Language: English)";
      st_video "https://youtu.be/dQw4w9WgXcQ"],
     Sent ("You are an expert video content analyst. " ++ nl
           ++ "**Task:** Provide a brief, concise overview in 3-4 sentences." ++ nl
           ++ "**Additional User Instructions:** None" ++ nl
           ++ "**Video Transcript (Language: English):**" ++ nl
           ++ "hello world" ++ nl
           ++ "Please provide a well-structured response with clear sections and formatting.")).
Proof. vm_compute. reflexivity. Qed.

(** * Further properties of the Identifier Extractor *)

Lemma leftmost_some_first (s v : string) :
  leftmost hit_any s = Some v ->
  exists p t, s = p ++ t /\ hit_any t = Some v /\ hit_before p t = false.
Proof.
  induction s as [|y s IH]; simpl; intros H.
  - discriminate H.
  - destruct (hit_any (String y s)) eqn:Hf.
    + injection H as <-. exists "", (String y s). repeat split. exact Hf.
    + destruct (IH H) as (p & t & -> & Ht & Hp).
      exists (String y p), t. repeat split; [exact Ht|].
      simpl. change (String y (p ++ t)) with (String y p ++ t) in Hf.
      simpl in Hf. now rewrite Hf.
Qed.

(** The last three patterns never decide: the function is the search
    of the first pattern alone. *)
Theorem later_patterns_never_decide (url : string) :
  extract_video_id url = first_match [pattern_any] url.
Proof.
  rewrite extract_video_id_leftmost. unfold first_match.
  rewrite (search_leftmost pattern_any).
  rewrite (leftmost_ext _ _ _ match_at_any), leftmost_map.
  now destruct (leftmost hit_any url).
Qed.

(** The function returns [v] exactly when [v] is 11 identifier
    characters that follow the first ["v="] or ["/"] of the string
    which 11 identifier characters follow. *)
Theorem extract_video_id_exactly (url v : string) :
  extract_video_id url = Some v
  <-> exists p mk rest,
        url = p ++ mk ++ v ++ rest
        /\ In mk ["v="; "/"]
        /\ valid_id v
        /\ hit_before p (mk ++ v ++ rest) = false.
Proof.
  rewrite extract_video_id_leftmost. split.
  - intros H. apply leftmost_some_first in H as (p & t & -> & Ht & Hp).
    apply hit_any_inv in Ht as (Hv & mk & rest & Hmk & ->).
    now exists p, mk, rest.
  - intros (p & mk & rest & -> & Hmk & Hv & Hp).
    rewrite leftmost_skip by exact Hp.
    apply leftmost_here. now apply hit_any_marker.
Qed.

Lemma extract_video_id_split (url v : string) :
  extract_video_id url = Some v ->
  exists p mk rest,
    url = p ++ mk ++ v ++ rest /\ In mk ["v="; "/"] /\ valid_id v
    /\ hit_before p (mk ++ v ++ rest) = false.
Proof.
  rewrite extract_video_id_leftmost. intros H.
  apply leftmost_some_first in H as (p & t & -> & Ht & Hp).
  apply hit_any_inv in Ht as (Hv & mk & rest & Hmk & ->).
  now exists p, mk, rest.
Qed.

Lemma marker_len (mk : string) : In mk ["v="; "/"] -> 1 <= len mk <= 2.
Proof. intros [<- | [<- | []]]; simpl; lia. Qed.

(** A string of fewer than 12 characters holds no identifier. *)
Theorem short_link_rejected (url : string) :
  len url < 12 -> extract_video_id url = None.
Proof.
  intros Hlen. destruct (extract_video_id url) as [v|] eqn:H; [|reflexivity].
  apply extract_video_id_split in H
    as (p & mk & rest & -> & Hmk & [Hv _] & _).
  apply marker_len in Hmk. rewrite !len_append in Hlen. lia.
Qed.

Lemma short_link_rejected_witness :
  len "dQw4w9WgXcQ" < 12 /\ extract_video_id "dQw4w9WgXcQ" = None.
Proof.
  assert (H : len "dQw4w9WgXcQ" < 12) by (simpl; lia).
  split; [exact H | exact (short_link_rejected "dQw4w9WgXcQ" H)].
Defined.

(** A string made of identifier characters only, of any length, holds
    no identifier: a bare video identifier is not a link. *)
Theorem bare_identifier_rejected (url : string) :
  all id_char url = true -> extract_video_id url = None.
Proof.
  intros Hall. destruct (extract_video_id url) as [v|] eqn:H; [|reflexivity].
  apply extract_video_id_split in H as (p & mk & rest & -> & Hmk & _ & _).
  rewrite !all_append in Hall.
  apply andb_true_iff in Hall as [_ Hall].
  apply andb_true_iff in Hall as [Hall _].
  destruct Hmk as [<- | [<- | []]]; discriminate Hall.
Qed.

Lemma bare_identifier_rejected_witness :
  all id_char "dQw4w9WgXcQ_and_more" = true
  /\ extract_video_id "dQw4w9WgXcQ_and_more" = None.
Proof.
  assert (H : all id_char "dQw4w9WgXcQ_and_more" = true) by reflexivity.
  split; [exact H | exact (bare_identifier_rejected _ H)].
Defined.

Lemma startswith_append_l (w s r : string) :
  len w <= len s -> startswith w (s ++ r) = startswith w s.
Proof.
  revert s; induction w as [|a w IH]; intros [|b s]; simpl; intros H;
    try reflexivity; try lia.
  rewrite IH by lia. reflexivity.
Qed.

Lemma drop_append_l (n : nat) (s r : string) :
  n <= len s -> drop n (s ++ r) = drop n s ++ r.
Proof.
  revert s; induction n as [|n IH]; intros [|b s]; simpl; intros H;
    try reflexivity; try lia.
  apply IH. lia.
Qed.

Lemma take_id_append_none (n : nat) (s r : string) :
  take_id n s = None -> n <= len s -> take_id n (s ++ r) = None.
Proof.
  revert s; induction n as [|n IH]; intros [|b s]; simpl; intros H Hlen;
    try discriminate; try lia.
  destruct (id_char b); [|reflexivity].
  destruct (take_id n s) eqn:Hn; [discriminate|].
  rewrite IH; [reflexivity | exact Hn | lia].
Qed.

Lemma hit_after_append_none (w s r : string) :
  hit_after w s = None -> len w + 11 <= len s ->
  hit_after w (s ++ r) = None.
Proof.
  unfold hit_after. intros H Hlen.
  rewrite startswith_append_l by lia.
  destruct (startswith w s); [|reflexivity].
  rewrite drop_append_l by lia.
  apply take_id_append_none; [exact H|]. rewrite len_drop. lia.
Qed.

Lemma hit_any_append_none (s r : string) :
  hit_any s = None -> 13 <= len s -> hit_any (s ++ r) = None.
Proof.
  unfold hit_any. intros H Hlen.
  destruct (hit_after "v=" s) eqn:H1; [discriminate|].
  rewrite (hit_after_append_none "v=" s r H1) by (simpl; lia).
  apply hit_after_append_none; [exact H | simpl; lia].
Qed.

Lemma hit_before_append (p t r : string) :
  hit_before p t = false -> 12 <= len t -> hit_before p (t ++ r) = false.
Proof.
  intros H Hlen. induction p as [|x p IH]; [reflexivity|].
  simpl in *. change (String x (p ++ t)) with (String x p ++ t) in H.
  change (String x (p ++ t ++ r)) with (String x p ++ t ++ r).
  destruct (hit_any (String x p ++ t)) eqn:Hx; [discriminate|].
  rewrite <- append_assoc.
  rewrite (hit_any_append_none _ r Hx); [now apply IH|].
  rewrite len_append. simpl. lia.
Qed.

(** What follows a link that holds an identifier does not change the
    identifier extracted. *)
Theorem trailing_text_ignored (url v extra : string) :
  extract_video_id url = Some v ->
  extract_video_id (url ++ extra) = Some v.
Proof.
  intros H.
  apply extract_video_id_split in H as (p & mk & rest & -> & Hmk & Hv & Hp).
  rewrite extract_video_id_leftmost.
  replace ((p ++ mk ++ v ++ rest) ++ extra)
    with (p ++ (mk ++ v ++ rest) ++ extra) by (symmetry; apply append_assoc).
  rewrite leftmost_skip.
  - apply leftmost_here. rewrite !append_assoc. now apply hit_any_marker.
  - apply hit_before_append; [exact Hp|].
    apply marker_len in Hmk. destruct Hv as [Hv _].
    rewrite !len_append. lia.
Qed.

Lemma trailing_text_ignored_witness :
  extract_video_id "https://youtu.be/dQw4w9WgXcQ" = Some "dQw4w9WgXcQ"
  /\ extract_video_id ("https://youtu.be/dQw4w9WgXcQ" ++ "/watch?v=AAAAAAAAAAA")
     = Some "dQw4w9WgXcQ".
Proof.
  split; [reflexivity|].
  exact (trailing_text_ignored "https://youtu.be/dQw4w9WgXcQ" "dQw4w9WgXcQ"
           "/watch?v=AAAAAAAAAAA" eq_refl).
Defined.

Lemma all_weaken (p q : ascii -> bool) (s : string) :
  (forall c, p c = true -> q c = true) -> all p s = true -> all q s = true.
Proof.
  intros Hpq. induction s as [|c s IH]; simpl; [reflexivity|].
  intros H. apply andb_true_iff in H as [Hc Hs].
  now rewrite (Hpq c Hc), IH.
Qed.

(** The name of the downloaded file, built from an identifier that was
    extracted, has 26 characters, all of them letters, digits, hyphens,
    underscores or dots: it holds no path separator. *)
Theorem download_file_name_safe (url video_id : string) :
  extract_video_id url = Some video_id ->
  len (download_file_name video_id) = 26
  /\ all file_char (download_file_name video_id) = true.
Proof.
  intros H. apply extract_video_id_valid in H as [Hlen Hall].
  unfold download_file_name. split.
  - rewrite !len_append, Hlen. reflexivity.
  - rewrite !all_append.
    rewrite (all_weaken id_char file_char video_id); [reflexivity | | exact Hall].
    intros c Hc. unfold file_char. now rewrite Hc.
Qed.

Lemma download_file_name_safe_witness :
  extract_video_id "https://www.youtube.com/watch?v=dQw4w9WgXcQ&t=1"
  = Some "dQw4w9WgXcQ"
  /\ download_file_name "dQw4w9WgXcQ" = "transcript_dQw4w9WgXcQ.txt"
  /\ all file_char (download_file_name "dQw4w9WgXcQ") = true.
Proof.
  split; [reflexivity|]. split; [reflexivity|].
  exact (proj2 (download_file_name_safe
                  "https://www.youtube.com/watch?v=dQw4w9WgXcQ&t=1"
                  "dQw4w9WgXcQ" eq_refl)).
Defined.

(** * Further properties of the Transcript Resolver *)

Section ResolverFacts.

Context {A : TranscriptApi}.

Lemma listing_cases (video_id : string) :
  (exists e, listing_fails A video_id e)
  \/ (exists tl, new_api A = Ok tt /\ list_transcripts A video_id = Ok tl).
Proof.
  unfold listing_fails.
  destruct (new_api A) as [[]|e] eqn:Hnew; [|left; exists e; now left].
  destruct (list_transcripts A video_id) as [tl|e] eqn:Hlist.
  - right. now exists tl.
  - left. exists e. right. now split.
Qed.

Lemma chain_decompose (l : list (Src.M A (FetchedTranscript * string)))
                      data lang :
  Src.outcome (chain l) = Ok (Some data, Some lang) ->
  exists failed a rest,
    l = (failed ++ a :: rest)%list /\ Forall fails failed
    /\ Src.outcome a = Ok (data, lang).
Proof.
  induction l as [|a l IH]; simpl; [discriminate|].
  destruct a as [c [[d g]|e]] eqn:Ea; simpl.
  - intros [= -> ->]. exists [], (c, Ok (data, lang)), l. now repeat split.
  - destruct (chain l) as [c' r'] eqn:Ec. simpl in *. intros H.
    destruct (IH H) as (failed & b & rest & -> & Hf & Hb).
    exists ((c, Raise e) :: failed), b, rest. repeat split; [|exact Hb].
    constructor; [now exists e | exact Hf].
Qed.

Lemma chain_none_inv (l : list (Src.M A (FetchedTranscript * string))) :
  Src.outcome (chain l) = Ok (None, None) -> Forall fails l.
Proof.
  induction l as [|a l IH]; simpl; [constructor|].
  destruct a as [c [[d g]|e]]; simpl; [discriminate|].
  destruct (chain l) as [c' r'] eqn:Ec. simpl in *. intros H.
  constructor; [now exists e | now apply IH].
Qed.

Lemma chain_shape (l : list (Src.M A (FetchedTranscript * string))) d lang :
  Src.outcome (chain l) = Ok (d, lang) ->
  (d = None /\ lang = None)
  \/ (exists data label, d = Some data /\ lang = Some label).
Proof.
  induction l as [|a l IH]; simpl.
  - intros [= <- <-]. now left.
  - destruct a as [c [[d' g]|e]]; simpl.
    + intros [= <- <-]. right. now exists d', g.
    + destruct (chain l) as [c' r']. simpl in *. exact IH.
Qed.

Lemma fetch_as_eq (t : Transcript A) (label : string) :
  fetch_as t label
  = ([CallFetch t],
     match fetch A t with
     | Ok data => Ok (data, label)
     | Raise e => Raise e
     end).
Proof. unfold fetch_as, Src.bind, Src.perform. now destruct (fetch A t). Qed.

(** The label of an attempt on the track [t]. *)
Let label_of (t : Transcript A) (label : string) : Prop :=
  label = "English" \/ label = "English (auto-generated)"
  \/ label = language A t.

Lemma lookup_then_fetch (c : call A) (r : result (Transcript A))
                        (label : Transcript A -> string) :
  (exists e, (t <- Src.perform c r ;; fetch_as t (label t)) = ([c], Raise e))
  \/ (exists t, r = Ok t
      /\ (t <- Src.perform c r ;; fetch_as t (label t))
         = ([c; CallFetch t],
            match fetch A t with
            | Ok data => Ok (data, label t)
            | Raise e => Raise e
            end)).
Proof.
  destruct r as [t|e]; [right | left; now exists e].
  exists t. split; [reflexivity|].
  unfold Src.bind, Src.perform. now rewrite fetch_as_eq.
Qed.

(** An attempt is a lookup that failed, or at most one lookup followed
    by the fetch of one track. *)
Lemma attempt_form (tl : TranscriptList A)
                   (a : Src.M A (FetchedTranscript * string)) :
  In a (attempts A tl) ->
  exists pre : list (call A),
    (forall u, ~ In (CallFetch u) pre) /\ List.length pre <= 1
    /\ ((exists e, a = (pre, Raise e))
        \/ (exists t label,
              a = ((pre ++ [CallFetch t])%list,
                   match fetch A t with
                   | Ok data => Ok (data, label)
                   | Raise e => Raise e
                   end)
              /\ label_of t label)).
Proof.
  unfold attempts, label_of. intros Hin.
  assert (Hlookup : forall (c : call A) (r : result (Transcript A))
                           (label : Transcript A -> string),
             (forall u, c <> CallFetch u) ->
             (forall t, label t = "English"
                        \/ label t = "English (auto-generated)"
                        \/ label t = language A t) ->
             a = (t <- Src.perform c r ;; fetch_as t (label t)) ->
             exists pre : list (call A),
               (forall u, ~ In (CallFetch u) pre) /\ List.length pre <= 1
               /\ ((exists e, a = (pre, Raise e))
                   \/ (exists t label0,
                         a = ((pre ++ [CallFetch t])%list,
                              match fetch A t with
                              | Ok data => Ok (data, label0)
                              | Raise e => Raise e
                              end)
                         /\ (label0 = "English"
                             \/ label0 = "English (auto-generated)"
                             \/ label0 = language A t)))).
  { intros c r label Hc Hl ->. exists [c].
    split; [intros u [Hu | []]; now apply (Hc u)|].
    split; [simpl; lia|].
    destruct (lookup_then_fetch c r label) as [[e He] | (t & _ & Ht)].
    - left. now exists e.
    - right. exists t, (label t). split; [exact Ht | apply Hl]. }
  destruct Hin as [<- | [<- | [<- | Hin]]].
  - apply (Hlookup (CallFind ["en"]) (find_transcript A tl ["en"])
             (fun _ => "English")); [discriminate | auto | reflexivity].
  - apply (Hlookup CallFindManual (find_manually_created_transcript A tl)
             (fun t => language A t)); [discriminate | auto | reflexivity].
  - apply (Hlookup (CallFindGenerated ["en"])
             (find_generated_transcript A tl ["en"])
             (fun _ => "English (auto-generated)"));
      [discriminate | auto | reflexivity].
  - apply in_map_iff in Hin as (t & <- & _). exists [].
    split; [intros u []|]. split; [simpl; lia|].
    right. exists t, (language A t). rewrite fetch_as_eq. auto.
Qed.

Lemma attempt_ok (tl : TranscriptList A)
                 (a : Src.M A (FetchedTranscript * string)) data lang :
  In a (attempts A tl) ->
  Src.outcome a = Ok (data, lang) ->
  exists pre t,
    Src.calls a = (pre ++ [CallFetch t])%list
    /\ (forall u, ~ In (CallFetch u) pre)
    /\ fetch A t = Ok data /\ label_of t lang.
Proof.
  intros Hin Hout.
  destruct (attempt_form tl a Hin) as (pre & Hpre & _ & [[e ->] | H]);
    [discriminate Hout|].
  destruct H as (t & label & -> & Hl). simpl in Hout.
  destruct (fetch A t) as [d|e] eqn:Hf; [|discriminate].
  injection Hout as -> ->. now exists pre, t.
Qed.

Lemma attempt_failed_fetch (tl : TranscriptList A)
                           (a : Src.M A (FetchedTranscript * string))
                           (u : Transcript A) :
  In a (attempts A tl) -> fails a ->
  In (CallFetch u) (Src.calls a) -> exists e, fetch A u = Raise e.
Proof.
  intros Hin [e' Hfail] Hu.
  destruct (attempt_form tl a Hin) as (pre & Hpre & _ & [[e ->] | H]).
  - now destruct (Hpre u).
  - destruct H as (t & label & -> & _). simpl in *.
    apply in_app_or in Hu as [Hu | [Hu | []]]; [now destruct (Hpre u)|].
    injection Hu as ->.
    destruct (fetch A u) as [d|e]; [discriminate | now exists e].
Qed.

Lemma attempt_length (tl : TranscriptList A)
                     (a : Src.M A (FetchedTranscript * string)) :
  In a (attempts A tl) -> List.length (Src.calls a) <= 2.
Proof.
  intros Hin.
  destruct (attempt_form tl a Hin) as (pre & _ & Hlen & [[e ->] | H]).
  - simpl. lia.
  - destruct H as (t & label & -> & _). simpl.
    rewrite length_app. simpl. lia.
Qed.

End ResolverFacts.

Lemma get_transcript_listed_outcome
  (A : TranscriptApi) (video_id : string) (tl : TranscriptList A) :
  new_api A = Ok tt ->
  list_transcripts A video_id = Ok tl ->
  Src.outcome (get_transcript A video_id)
  = Src.outcome (chain (attempts A tl)).
Proof.
  intros Hnew Hlist.
  now rewrite (get_transcript_listed video_id tl Hnew Hlist).
Qed.

(** [get_transcript] returns a transcript together with a label, or
    neither: never one without the other. *)
Theorem transcript_and_label_together
  (A : TranscriptApi) (video_id : string)
  (data : option FetchedTranscript) (lang : option string) :
  Src.outcome (get_transcript A video_id) = Ok (data, lang) ->
  (data = None /\ lang = None)
  \/ (exists d l, data = Some d /\ lang = Some l).
Proof.
  intros H.
  destruct (listing_cases (A := A) video_id) as [[e He] | (tl & Hnew & Hlist)].
  - rewrite (get_transcript_not_listed video_id e He) in H. discriminate H.
  - rewrite (get_transcript_listed_outcome A video_id tl Hnew Hlist) in H.
    now apply chain_shape in H.
Qed.

Lemma transcript_and_label_together_witness :
  let A := source (serving [blocked_french; manual_english]) missing_argument in
  Src.outcome (get_transcript A "dQw4w9WgXcQ")
  = Ok (Some sample_entries, Some "English")
  /\ ((Some sample_entries = None /\ Some "English" = None)
      \/ exists d l, Some sample_entries = Some d /\ Some "English" = Some l).
Proof.
  intros A. split; [reflexivity|].
  exact (transcript_and_label_together A "dQw4w9WgXcQ"
           (Some sample_entries) (Some "English") eq_refl).
Defined.

(** The transcript that [get_transcript] returns is what the last call
    of the run, a fetch, returned; its label is "English",
    "English (auto-generated)" or the language of the track fetched;
    and every fetch made before it failed: the run stops at the first
    fetch that succeeds. *)
Theorem transcript_from_first_successful_fetch
  (A : TranscriptApi) (video_id : string)
  (data : FetchedTranscript) (lang : string) :
  Src.outcome (get_transcript A video_id) = Ok (Some data, Some lang) ->
  exists (pre : list (call A)) (t : Transcript A),
    Src.calls (get_transcript A video_id) = (pre ++ [CallFetch t])%list
    /\ fetch A t = Ok data
    /\ (lang = "English" \/ lang = "English (auto-generated)"
        \/ lang = language A t)
    /\ forall u, In (CallFetch u) pre -> exists e, fetch A u = Raise e.
Proof.
  intros H.
  destruct (listing_cases (A := A) video_id) as [[e He] | (tl & Hnew & Hlist)].
  - rewrite (get_transcript_not_listed video_id e He) in H. discriminate H.
  - pose proof H as H'.
    rewrite (get_transcript_listed_outcome A video_id tl Hnew Hlist) in H'.
    apply chain_decompose in H' as (failed & a & rest & E & Hf & Ha).
    assert (Hin : In a (attempts A tl))
      by (rewrite E; apply in_or_app; right; now left).
    destruct (attempt_ok tl a data lang Hin Ha) as (pre & t & Hc & Hpre & Ht & Hl).
    exists (CallNew :: CallList video_id :: calls_of failed ++ pre)%list, t.
    split; [|split; [exact Ht | split; [exact Hl|]]].
    + rewrite (get_transcript_first video_id tl failed rest a data lang
                 Hnew Hlist E Hf Ha).
      simpl. rewrite Hc, <- app_assoc. reflexivity.
    + intros u [Hu | [Hu | Hu]]; [discriminate Hu | discriminate Hu|].
      apply in_app_or in Hu as [Hu | Hu]; [|now destruct (Hpre u)].
      unfold calls_of in Hu. apply in_concat in Hu as (cs & Hcs & Hu).
      apply in_map_iff in Hcs as (b & <- & Hb).
      apply (attempt_failed_fetch tl b u).
      * rewrite E. apply in_or_app. now left.
      * rewrite Forall_forall in Hf. now apply Hf.
      * exact Hu.
Qed.

Lemma transcript_from_first_successful_fetch_witness :
  let A := source (serving [blocked_french; manual_french]) missing_argument in
  Src.outcome (get_transcript A "dQw4w9WgXcQ")
  = Ok (Some sample_entries, Some "French")
  /\ exists (pre : list (call A)) (t : Transcript A),
       Src.calls (get_transcript A "dQw4w9WgXcQ") = (pre ++ [CallFetch t])%list
       /\ fetch A t = Ok sample_entries
       /\ ("French" = "English" \/ "French" = "English (auto-generated)"
           \/ "French" = language A t)
       /\ forall u, In (CallFetch u) pre -> exists e, fetch A u = Raise e.
Proof.
  intros A. split; [reflexivity|].
  exact (transcript_from_first_successful_fetch A "dQw4w9WgXcQ"
           sample_entries "French" eq_refl).
Defined.

(** [get_transcript] raises only when the client could not be built or
    the tracks could not be listed, and what it raises is a plain
    [Exception] with a message that is not empty. *)
Theorem raises_only_when_listing_fails
  (A : TranscriptApi) (video_id : string) (raised : exception) :
  Src.outcome (get_transcript A video_id) = Raise raised ->
  (exists e, listing_fails A video_id e)
  /\ exc_class raised = PlainException
  /\ exc_str raised <> "".
Proof.
  intros H.
  destruct (listing_cases (A := A) video_id) as [[e He] | (tl & Hnew & Hlist)].
  - split; [now exists e|].
    rewrite (get_transcript_not_listed video_id e He) in H.
    injection H as <-. unfold reraise.
    destruct (exc_class e); split; try reflexivity; discriminate.
  - rewrite (get_transcript_listed_outcome A video_id tl Hnew Hlist) in H.
    destruct (chain_returns (attempts A tl)) as [r Hr].
    rewrite Hr in H. discriminate H.
Qed.

Lemma raises_only_when_listing_fails_witness :
  let A := source (fun _ => Raise unavailable) first_manual in
  Src.outcome (get_transcript A "dQw4w9WgXcQ")
  = Raise (Exception "Video is unavailable or private")
  /\ exc_class (Exception "Video is unavailable or private") = PlainException.
Proof.
  intros A. split; [reflexivity|].
  exact (proj1 (proj2 (raises_only_when_listing_fails A "dQw4w9WgXcQ"
                         (Exception "Video is unavailable or private")
                         eq_refl))).
Defined.

(** When the tracks are listed and one of them can be fetched,
    [get_transcript] returns a transcript: [(None, None)] is returned
    only when the fetch of every listed track fails. *)
Theorem fetchable_track_is_returned
  (A : TranscriptApi) (video_id : string) (tl : TranscriptList A)
  (t : Transcript A) (fetched_data : FetchedTranscript) :
  new_api A = Ok tt ->
  list_transcripts A video_id = Ok tl ->
  In t (iter A tl) ->
  fetch A t = Ok fetched_data ->
  exists data lang,
    Src.outcome (get_transcript A video_id) = Ok (Some data, Some lang).
Proof.
  intros Hnew Hlist Hin Hfetch.
  rewrite (get_transcript_listed_outcome A video_id tl Hnew Hlist).
  destruct (chain_returns (attempts A tl)) as [[d l] Hr]. rewrite Hr.
  destruct (chain_shape _ _ _ Hr) as [[-> ->] | (data & lang & -> & ->)];
    [exfalso | now exists data, lang].
  apply chain_none_inv in Hr. rewrite Forall_forall in Hr.
  destruct (Hr (fetch_as t (language A t))) as [e He].
  - unfold attempts. apply in_or_app. right.
    apply in_map_iff. now exists t.
  - rewrite fetch_as_eq in He. unfold Src.outcome in He. simpl in He.
    rewrite Hfetch in He. discriminate He.
Qed.

Lemma fetchable_track_is_returned_witness :
  let ts := [blocked_french; generated_english] in
  let A := source (serving ts) missing_argument in
  list_transcripts A "dQw4w9WgXcQ" = Ok ts
  /\ In generated_english (iter A ts)
  /\ exists data lang,
       Src.outcome (get_transcript A "dQw4w9WgXcQ") = Ok (Some data, Some lang).
Proof.
  intros ts A. split; [reflexivity|].
  assert (Hin : In generated_english (iter A ts)) by (simpl; auto).
  split; [exact Hin|].
  exact (fetchable_track_is_returned A "dQw4w9WgXcQ" ts generated_english
           sample_entries eq_refl eq_refl Hin eq_refl).
Defined.

Lemma chain_calls_bound (A : TranscriptApi)
                        (l : list (Src.M A (FetchedTranscript * string))) :
  List.length (Src.calls (chain l)) <= List.length (calls_of l).
Proof.
  induction l as [|a l IH]; simpl; [lia|].
  unfold calls_of. simpl. rewrite length_app.
  destruct a as [c [[d g]|e]]; simpl; [lia|].
  destruct (chain l) as [c' r'] eqn:Ec. simpl in *.
  rewrite length_app. unfold calls_of in IH. lia.
Qed.

Lemma tier4_calls_length (A : TranscriptApi) (ts : list (Transcript A)) :
  List.length (calls_of (map (fun t => fetch_as t (language A t)) ts))
  = List.length ts.
Proof.
  induction ts as [|t ts IH]; [reflexivity|].
  unfold calls_of in *. simpl. rewrite length_app, IH, fetch_as_eq.
  reflexivity.
Qed.

(** A run of [get_transcript] makes at most 8 calls of the source plus
    one for each listed track: no call is repeated without end. *)
Theorem calls_bounded
  (A : TranscriptApi) (video_id : string) (tl : TranscriptList A) :
  list_transcripts A video_id = Ok tl ->
  call_count (get_transcript A video_id) <= 8 + List.length (iter A tl).
Proof.
  intros Hlist. unfold call_count.
  destruct (listing_cases (A := A) video_id) as [[e He] | (tl' & Hnew & Hlist')].
  - rewrite (get_transcript_not_listed video_id e He).
    unfold listing_calls. simpl. destruct (new_api A); simpl; lia.
  - rewrite Hlist in Hlist'. injection Hlist' as <-.
    rewrite (get_transcript_listed video_id tl Hnew Hlist).
    change (S (S (List.length (Src.calls (chain (attempts A tl)))))
            <= 8 + List.length (iter A tl)).
    pose proof (chain_calls_bound A (attempts A tl)) as Hb.
    assert (Hc : List.length (calls_of (attempts A tl))
                 <= 6 + List.length (iter A tl)).
    { unfold attempts, calls_of. rewrite map_app, concat_app, length_app.
      change (concat (map Src.calls
                 (map (fun t => fetch_as t (language A t)) (iter A tl))))
        with (calls_of (map (fun t => fetch_as t (language A t)) (iter A tl))).
      rewrite tier4_calls_length.
      assert (H1 : List.length (Src.calls (@tier1 A tl)) <= 2)
        by (apply (attempt_length tl); unfold attempts; simpl; auto).
      assert (H2 : List.length (Src.calls (@tier2 A tl)) <= 2)
        by (apply (attempt_length tl); unfold attempts; simpl; auto).
      assert (H3 : List.length (Src.calls (@tier3 A tl)) <= 2)
        by (apply (attempt_length tl); unfold attempts; simpl; auto).
      simpl. rewrite !length_app. simpl. lia. }
    lia.
Qed.

Lemma calls_bounded_witness :
  let ts := [blocked_french; manual_french] in
  let A := source (serving ts) missing_argument in
  list_transcripts A "dQw4w9WgXcQ" = Ok ts
  /\ call_count (get_transcript A "dQw4w9WgXcQ") <= 8 + 2.
Proof.
  intros ts A. split; [reflexivity|].
  exact (calls_bounded A "dQw4w9WgXcQ" ts eq_refl).
Defined.

(** * Further properties of the text handling *)

Lemma count_words_blank (inword : bool) (s : string) :
  all isspace s = true -> count_words inword s = 0.
Proof.
  revert inword; induction s as [|c s IH]; intros inword; simpl;
    [reflexivity|].
  intros H. apply andb_true_iff in H as [Hc Hs]. rewrite Hc. now apply IH.
Qed.

Lemma blank_words (s : string) :
  count_words false s = 0 -> all isspace s = true.
Proof.
  induction s as [|c s IH]; simpl; [reflexivity|].
  destruct (isspace c); simpl; [exact IH | discriminate].
Qed.

(** [text.strip()] is empty exactly when [text.split()] is: a text
    passes the test "Transcript is empty" exactly when it has at least
    one word. *)
Theorem blank_iff_no_word (text : string) :
  all isspace text = true <-> count_words false text = 0.
Proof.
  split; [apply count_words_blank | apply blank_words].
Qed.

Lemma all_isspace_join (parts : list string) :
  all isspace (join_space parts) = forallb (all isspace) parts.
Proof.
  induction parts as [|p ps IH]; [reflexivity|].
  destruct ps as [|q ps].
  - simpl. now rewrite andb_true_r.
  - change (join_space (p :: q :: ps))
      with (p ++ " " ++ join_space (q :: ps)).
    rewrite !all_append, IH. reflexivity.
Qed.

(** The text is cut without adding words: the words counted after
    [text[:n]] are at most the words counted before. *)
Lemma count_words_take (n : nat) (inword : bool) (s : string) :
  count_words inword (take n s) <= count_words inword s.
Proof.
  revert inword s; induction n as [|n IH]; intros inword [|c s]; simpl;
    try lia.
  destruct (isspace c); [apply IH|].
  specialize (IH true s). lia.
Qed.

Lemma count_words_half (s : string) :
  2 * count_words true s <= len s /\ 2 * count_words false s <= len s + 1.
Proof.
  induction s as [|c s [IHt IHf]]; simpl; [lia|].
  destruct (isspace c); simpl; lia.
Qed.

Lemma truncate_cases (text : string) :
  (MAX_CHARS < len text
   /\ truncate text = (take MAX_CHARS text, [truncation_warning]))
  \/ (len text <= MAX_CHARS /\ truncate text = (text, [])).
Proof.
  destruct (Nat.lt_ge_cases MAX_CHARS (len text)) as [H | H].
  - left. split; [exact H | now apply truncate_long].
  - right. split; [exact H | now apply truncate_short].
Qed.

Lemma truncate_len (text : string) : len (fst (truncate text)) <= MAX_CHARS.
Proof.
  destruct (truncate_cases text) as [[H ->] | [H ->]]; cbn [fst snd]; [|exact H].
  rewrite len_take. apply Nat.le_min_l.
Qed.

(** Truncating twice is truncating once, and the warning is shown
    exactly when the text was changed. *)
Theorem truncate_idempotent (text : string) :
  truncate (fst (truncate text)) = (fst (truncate text), [])
  /\ (snd (truncate text) = [] <-> fst (truncate text) = text).
Proof.
  split.
  - apply truncate_short, truncate_len.
  - destruct (truncate_cases text) as [[H ->] | [H ->]]; cbn [fst snd].
    + split; [discriminate|]. intros E.
      assert (Hl : len (take MAX_CHARS text) = len text) by now rewrite E.
      rewrite len_take in Hl. lia.
    + now split.
Qed.

Lemma max_chars_value : MAX_CHARS = 150 * 200.
Proof. apply Nat.eqb_eq. vm_compute. reflexivity. Qed.

(** The statistics are those of the text after truncation: at most
    [MAX_CHARS] characters, no more words than the text fetched had,
    at most one word for two characters, and an estimated reading time
    of at most 75 minutes. *)
Theorem statistics_bounded (language text : string) :
  let shown := fst (truncate text) in
  exists words chars minutes : nat,
    transcript_statistics language shown
    = ["**Language:** " ++ language;
       "**Total Words:** " ++ str_of_nat words;
       "**Total Characters:** " ++ str_of_nat chars;
       "**Estimated Reading Time:** " ++ str_of_nat minutes ++ " minutes"]
    /\ chars <= MAX_CHARS
    /\ words <= count_words false text
    /\ 2 * words <= MAX_CHARS + 1
    /\ minutes <= 75.
Proof.
  intros shown.
  exists (count_words false shown), (len shown), (reading_minutes shown).
  split; [reflexivity|].
  assert (Hlen : len shown <= MAX_CHARS) by apply truncate_len.
  assert (Hhalf : 2 * count_words false shown <= MAX_CHARS + 1).
  { pose proof (count_words_half shown) as [_ Hf]. lia. }
  split; [exact Hlen|]. split; [|split; [exact Hhalf|]].
  - unfold shown.
    destruct (truncate_cases text) as [[H ->] | [H ->]]; cbn [fst snd];
      [apply count_words_take | lia].
  - unfold reading_minutes. rewrite max_chars_value in Hhalf.
    apply Nat.Div0.div_le_upper_bound. lia.
Qed.

(** * Further properties of the handler *)

(** For a transcript that has entries, the handler reports "Transcript
    is empty." exactly when every entry is blank. *)
Theorem transcript_empty_iff_blank
  (A : TranscriptApi) (video_id : string)
  (data : FetchedTranscript) (lang : option string) :
  Src.outcome (get_transcript A video_id) = Ok (Some data, lang) ->
  data <> [] ->
  (fetch_stage A video_id = ([st_error "❌ Transcript is empty."], None)
   <-> forall entry, In entry data -> all isspace (text entry) = true).
Proof.
  intros Hout Hdata. unfold fetch_stage. rewrite Hout.
  destruct data as [|s d]; [now destruct Hdata|].
  cbn [has_entries negb]. rewrite all_isspace_join.
  destruct (forallb (all isspace) (map text (s :: d))) eqn:Hb.
  - split; [|reflexivity]. intros _ entry Hin.
    rewrite forallb_forall in Hb. apply Hb. now apply in_map.
  - split; [discriminate|]. intros Hall.
    assert (Ht : forallb (all isspace) (map text (s :: d)) = true).
    { apply forallb_forall. intros x Hx.
      apply in_map_iff in Hx as (entry & <- & Hin). now apply Hall. }
    rewrite Ht in Hb. discriminate Hb.
Qed.

Lemma transcript_empty_iff_blank_witness :
  let blank := {| track_language := "English"; language_code := "en";
                  is_generated := false;
                  fetched := Ok [{| text := "  " |}; {| text := "" |}] |} in
  let A := source (serving [blank]) first_manual in
  Src.outcome (get_transcript A "dQw4w9WgXcQ")
  = Ok (Some [{| text := "  " |}; {| text := "" |}], Some "English")
  /\ fetch_stage A "dQw4w9WgXcQ"
     = ([st_error "❌ Transcript is empty."], None).
Proof.
  intros blank A. split; [reflexivity|].
  apply (transcript_empty_iff_blank A "dQw4w9WgXcQ"
           [{| text := "  " |}; {| text := "" |}] (Some "English") eq_refl).
  - discriminate.
  - intros entry [<- | [<- | []]]; reflexivity.
Defined.

(** The assistant is called only when it was built, the link holds an
    identifier, [get_transcript] returned a transcript that has an entry
    and a word, with its label, and the summary type is a key of
    [summary_instructions]; the prompt is then composed from the text
    after truncation, and the page shows the identifier, the success
    line, the video and the truncation warning if any. *)
Theorem assistant_called_only_with_transcript
  (A : TranscriptApi) (assistant : bool)
  (yt_link summary_type user_query : string)
  (shown : list ui) (prompt : string) :
  analyze_video A assistant yt_link summary_type user_query
  = (shown, Sent prompt) ->
  assistant = true
  /\ exists video_id data lang instruction,
       extract_video_id yt_link = Some video_id
       /\ Src.outcome (get_transcript A video_id) = Ok (Some data, Some lang)
       /\ data <> []
       /\ 1 <= count_words false (transcript_text data)
       /\ dict_get summary_instructions summary_type = Some instruction
       /\ prompt = prompt_of instruction user_query lang
                     (fst (truncate (transcript_text data)))
       /\ shown
          = ([st_info ("✓ Video ID: " ++ video_id);
              st_success ("✅ Transcript fetched! ("
                          ++ str_of_nat (count_words false (transcript_text data))
                          ++ " words, Language: " ++ lang ++ ")");
              st_video yt_link]
             ++ snd (truncate (transcript_text data)))%list.
Proof.
  intros H. unfold analyze_video in H.
  destruct (truthy yt_link); cbn [negb] in H; [|discriminate H].
  destruct assistant; cbn [negb] in H; [|discriminate H].
  split; [reflexivity|].
  destruct (extract_video_id yt_link) as [[|c v]|] eqn:Hid;
    try discriminate H.
  destruct (fetch_stage A (String c v)) as [shown2 [[txt lang]|]] eqn:Hfs;
    [|discriminate H].
  destruct (compose summary_type user_query (format_opt lang) txt)
    as [shown4 [p|e]] eqn:Hc; [|discriminate H].
  injection H as <- <-.
  unfold fetch_stage in Hfs.
  destruct (Src.outcome (get_transcript A (String c v))) as [[d l]|e] eqn:Hout;
    [|discriminate Hfs].
  destruct d as [[|s d]|]; cbn [has_entries negb] in Hfs;
    try discriminate Hfs.
  fold (transcript_text (s :: d)) in Hfs.
  destruct (all isspace (transcript_text (s :: d))) eqn:Hb;
    [discriminate Hfs|].
  injection Hfs as <- <- <-.
  assert (Hl : exists label, l = Some label).
  { destruct (listing_cases (A := A) (String c v))
      as [[e He] | (tl & Hnew & Hlist)].
    - rewrite (get_transcript_not_listed _ e He) in Hout. discriminate Hout.
    - rewrite (get_transcript_listed_outcome A _ tl Hnew Hlist) in Hout.
      apply chain_shape in Hout as [[Hd _] | (d' & label & _ & ->)];
        [discriminate Hd | now exists label]. }
  destruct Hl as [label ->].
  unfold compose in Hc.
  destruct (truncate (transcript_text (s :: d))) as [txt' warned] eqn:Ht.
  destruct (dict_get summary_instructions summary_type) as [instruction|] eqn:Hd;
    [|discriminate Hc].
  injection Hc as <- <-.
  exists (String c v), (s :: d), label, instruction.
  split; [reflexivity|]. split; [exact Hout|]. split; [discriminate|].
  split.
  - destruct (count_words false (transcript_text (s :: d))) eqn:Hw; [|lia].
    apply blank_words in Hw. rewrite Hw in Hb. discriminate Hb.
  - rewrite Ht. split; [reflexivity|]. split; reflexivity.
Qed.

Lemma assistant_called_only_with_transcript_witness :
  let A := source (serving [manual_english]) first_manual in
  let run := analyze_video A true "https://youtu.be/dQw4w9WgXcQ"
                           "Quick Overview" "" in
  let prompt := match snd run with Sent p => p | _ => "" end in
  run = (fst run, Sent prompt)
  /\ exists video_id data lang instruction,
       extract_video_id "https://youtu.be/dQw4w9WgXcQ" = Some video_id
       /\ Src.outcome (get_transcript A video_id) = Ok (Some data, Some lang)
       /\ data <> []
       /\ 1 <= count_words false (transcript_text data)
       /\ dict_get summary_instructions "Quick Overview" = Some instruction
       /\ prompt = prompt_of instruction "" lang
                     (fst (truncate (transcript_text data)))
       /\ fst run
          = ([st_info ("✓ Video ID: " ++ video_id);
              st_success ("✅ Transcript fetched! ("
                          ++ str_of_nat (count_words false (transcript_text data))
                          ++ " words, Language: " ++ lang ++ ")");
              st_video "https://youtu.be/dQw4w9WgXcQ"]
             ++ snd (truncate (transcript_text data)))%list.
Proof.
  intros A run prompt.
  assert (H : run = (fst run, Sent prompt)) by (vm_compute; reflexivity).
  split; [exact H|].
  exact (proj2 (assistant_called_only_with_transcript A true
                  "https://youtu.be/dQw4w9WgXcQ" "Quick Overview" ""
                  (fst run) prompt H)).
Defined.

(** When the client cannot be built or the tracks cannot be listed, the
    handler shows the identifier, then "Could not fetch transcript: "
    with the message of the class of the failure, and stops. *)
Theorem listing_failure_shown
  (A : TranscriptApi) (yt_link video_id summary_type user_query : string)
  (e : exception) :
  extract_video_id yt_link = Some video_id ->
  listing_fails A video_id e ->
  exists msg,
    analyze_video A true yt_link summary_type user_query
    = ([st_info ("✓ Video ID: " ++ video_id);
        st_error ("❌ Could not fetch transcript: " ++ msg)],
       Stopped)
    /\ (exc_class e = TranscriptsDisabled ->
        msg = "Transcripts are disabled for this video")
    /\ (exc_class e = NoTranscriptFound ->
        msg = "No transcripts found for this video")
    /\ (exc_class e = VideoUnavailable ->
        msg = "Video is unavailable or private")
    /\ (exc_class e = PlainException \/ (exists name, exc_class e = OtherError name) ->
        msg = "Error fetching transcript: " ++ exc_str e).
Proof.
  intros Hid Hfail. exists (exc_str (reraise e)). split.
  - unfold analyze_video.
    destruct (extract_video_id_link _ _ Hid) as [Hlink (c & v' & Hv)].
    rewrite Hlink, Hid. cbn [negb]. subst video_id.
    unfold fetch_stage.
    rewrite (get_transcript_not_listed (String c v') e Hfail).
    reflexivity.
  - unfold reraise. repeat split.
    + now intros ->.
    + now intros ->.
    + now intros ->.
    + intros [-> | [name ->]]; reflexivity.
Qed.

Lemma listing_failure_shown_witness :
  let A := source (fun _ => Raise unavailable) first_manual in
  extract_video_id "https://youtu.be/dQw4w9WgXcQ" = Some "dQw4w9WgXcQ"
  /\ listing_fails A "dQw4w9WgXcQ" unavailable
  /\ exists msg,
       analyze_video A true "https://youtu.be/dQw4w9WgXcQ" "Key Points" ""
       = ([st_info ("✓ Video ID: " ++ "dQw4w9WgXcQ");
           st_error ("❌ Could not fetch transcript: " ++ msg)],
          Stopped).
Proof.
  intros A.
  assert (H : listing_fails A "dQw4w9WgXcQ" unavailable)
    by (right; split; reflexivity).
  split; [reflexivity|]. split; [exact H|].
  destruct (listing_failure_shown A "https://youtu.be/dQw4w9WgXcQ"
              "dQw4w9WgXcQ" "Key Points" "" unavailable eq_refl H)
    as (msg & Hrun & _).
  exists msg. exact Hrun.
Defined.

Lemma dict_get_unknown (summary_type : string) :
  ~ In summary_type summary_types ->
  dict_get summary_instructions summary_type = None.
Proof.
  intros Hno. unfold summary_instructions, dict_get.
  destruct (String.eqb_spec "Comprehensive" summary_type) as [E|_];
    [destruct Hno; rewrite <- E; simpl; auto|].
  destruct (String.eqb_spec "Key Points" summary_type) as [E|_];
    [destruct Hno; rewrite <- E; simpl; auto|].
  destruct (String.eqb_spec "Quick Overview" summary_type) as [E|_];
    [destruct Hno; rewrite <- E; simpl; auto|].
  destruct (String.eqb_spec "Detailed Analysis" summary_type) as [E|_];
    [destruct Hno; rewrite <- E; simpl; auto|].
  reflexivity.
Qed.

Lemma escape_plain (c : ascii) :
  Repr.plain c = true -> Repr.escape Repr.squote c = String c EmptyString.
Proof.
  destruct c as [[] [] [] [] [] [] [] []]; vm_compute; intros H;
    first [discriminate H | reflexivity].
Qed.

Lemma plain_not_squote (c : ascii) :
  Repr.plain c = true -> Ascii.eqb c Repr.squote = false.
Proof.
  destruct c as [[] [] [] [] [] [] [] []]; vm_compute; intros H;
    first [discriminate H | reflexivity].
Qed.

Lemma repr_plain (s : string) :
  all Repr.plain s = true -> Repr.repr s = "'" ++ s ++ "'".
Proof.
  intros H. unfold Repr.repr.
  assert (Hc : Repr.contains Repr.squote s = false).
  { induction s as [|c s IH]; [reflexivity|]. simpl in *.
    apply andb_true_iff in H as [Hc Hs].
    now rewrite (plain_not_squote c Hc), IH. }
  rewrite Hc. cbn [andb].
  assert (He : Repr.escape_all Repr.squote s = s).
  { induction s as [|c s IH]; [reflexivity|].
    cbn [all] in H. apply andb_true_iff in H as [Hp Hs].
    cbn [Repr.escape_all].
    rewrite (escape_plain c Hp), IH; [reflexivity | exact Hs |].
    simpl in Hc. now apply orb_false_iff in Hc as [_ Hc]. }
  rewrite He. reflexivity.
Qed.

(** A summary type that is not an option of the select box is a
    missing key: the composer raises [KeyError], whose message is
    [repr(summary_type)], after the truncation and its warning, and the
    handler never calls the assistant.  For a key of printable
    characters without apostrophe or backslash the message is the key
    between apostrophes. *)
Theorem unknown_summary_type (summary_type : string) :
  ~ In summary_type summary_types ->
  (forall user_query language text,
      compose summary_type user_query language text
      = (snd (truncate text),
         Raise {| exc_class := OtherError "KeyError";
                  exc_str := Repr.repr summary_type |}))
  /\ (all Repr.plain summary_type = true ->
      Repr.repr summary_type = "'" ++ summary_type ++ "'")
  /\ (forall A assistant yt_link user_query shown prompt,
         analyze_video A assistant yt_link summary_type user_query
         <> (shown, Sent prompt)).
Proof.
  intros Hno. pose proof (dict_get_unknown _ Hno) as Hget.
  split; [|split].
  - intros uq lang txt. unfold compose.
    destruct (truncate txt) as [txt' warned]. now rewrite Hget.
  - apply repr_plain.
  - intros A assistant yt_link uq shown prompt H.
    unfold analyze_video in H.
    destruct (truthy yt_link); cbn [negb] in H; [|discriminate H].
    destruct assistant; cbn [negb] in H; [|discriminate H].
    destruct (extract_video_id yt_link) as [[|c v]|]; try discriminate H.
    destruct (fetch_stage A (String c v)) as [shown2 [[txt lang]|]];
      [|discriminate H].
    unfold compose in H. destruct (truncate txt) as [txt' warned].
    rewrite Hget in H. discriminate H.
Qed.

Lemma unknown_summary_type_witness :
  ~ In "it's" summary_types
  /\ compose "it's" "" "English" "hello world"
     = ([], Raise {| exc_class := OtherError "KeyError";
                     exc_str := String Repr.dquote
                                  ("it's" ++ String Repr.dquote "") |}).
Proof.
  assert (H : ~ In "it's" summary_types).
  { intros [E | [E | [E | [E | []]]]]; discriminate E. }
  split; [exact H|].
  exact (proj1 (unknown_summary_type "it's" H) "" "English" "hello world").
Defined.

(** [repr] on a key without apostrophe and on keys with quotes, a
    backslash and characters that are not printable. *)
Example repr_samples :
  Repr.repr "Quick" = "'Quick'"
  /\ Repr.repr "" = "''"
  /\ Repr.repr (String Repr.squote (String Repr.dquote "a"))
     = String Repr.squote
         (String Repr.backslash
            (String Repr.squote (String Repr.dquote (String "a" "'"))))
  /\ Repr.repr (String "010" (String "127" (String "173" "\")))
     = "'\n\x7f\xad\\'".
Proof. repeat split. Qed.

Lemma prompt_of_len (instruction user_query language text : string) :
  len (prompt_of instruction user_query language text)
  = 201 + len instruction + len (instructions_slot user_query)
    + len language + len text.
Proof.
  unfold prompt_of, persona, directive, nl.
  rewrite !len_append. simpl. lia.
Qed.

(** The prompt sent for a summary type of the select box has at most
    287 characters besides the user's instructions, the language label
    and the text, and the text takes at most [MAX_CHARS] of them. *)
Theorem prompt_length_bounded
  (summary_type user_query language text : string) :
  In summary_type summary_types ->
  exists prompt,
    snd (compose summary_type user_query language text) = Ok prompt
    /\ len prompt
       <= 287 + len user_query + len language + Nat.min (len text) MAX_CHARS.
Proof.
  intros Hin.
  assert (Hget : exists instruction,
             dict_get summary_instructions summary_type = Some instruction
             /\ len instruction <= 82).
  { destruct Hin as [<- | [<- | [<- | [<- | []]]]]; eexists;
      (split; [reflexivity | simpl; lia]). }
  destruct Hget as (instruction & Hget & Hlen).
  rewrite (compose_found _ _ _ _ _ Hget). cbn [snd].
  eexists. split; [reflexivity|].
  rewrite prompt_of_len.
  assert (Hslot : len (instructions_slot user_query) <= 4 + len user_query)
    by (destruct user_query; simpl; lia).
  assert (Htext : len (fst (truncate text)) <= Nat.min (len text) MAX_CHARS).
  { destruct (truncate_cases text) as [[H ->] | [H ->]]; cbn [fst].
    - rewrite len_take. lia.
    - lia. }
  lia.
Qed.

Lemma prompt_length_bounded_witness :
  In "Key Points" summary_types
  /\ exists prompt,
       snd (compose "Key Points" "" "French" "bonjour") = Ok prompt
       /\ len prompt
          <= 287 + len "" + len "French" + Nat.min (len "bonjour") MAX_CHARS.
Proof.
  assert (H : In "Key Points" summary_types) by (simpl; auto).
  split; [exact H|].
  exact (prompt_length_bounded "Key Points" "" "French" "bonjour" H).
Defined.
